(** * Plan-Reflection planner: instruction builder and response segmenter

    A shallow embedding of [google/adk/planners/plan_reflection_planner.py].

    - Python [str] values are [string]s (UTF-8 byte sequences; every tag is
      ASCII, so substring and prefix tests agree with the code-point view).
    - [types.Part] objects live in a store ([heap]) and are passed around by
      reference ([ref]); [response_part.thought = True] is an update of the
      store, [types.Part(text=...)] allocates a fresh cell.
    - Methods that touch parts run in a small state monad over the store. *)

From Stdlib Require Import ZArith Lia.
From stdpp Require Import base list strings.

Local Open Scope Z_scope.

(** ** Python string primitives used by the planner *)

Module PyStr.

(** [len(s)] *)
Definition len (s : string) : Z := Z.of_nat (String.length s).

(** Truthiness of a [str]: only the empty string is falsy. *)
Definition truthy (s : string) : bool :=
  match s with
  | EmptyString => false
  | String _ _ => true
  end.

(** [text.startswith(tag)] *)
Fixpoint startswith (text tag : string) {struct tag} : bool :=
  match tag, text with
  | EmptyString, _ => true
  | String _ _, EmptyString => false
  | String c tag', String d text' =>
      if Ascii.eqb c d then startswith text' tag' else false
  end.

(** [sep in text] *)
Fixpoint contains (sep text : string) : bool :=
  startswith text sep ||
  match text with
  | EmptyString => false
  | String _ text' => contains sep text'
  end.

(** [text.rfind(sep)]: the highest index at which [sep] occurs in [text],
    or [-1].  [rfind_from i text sep last] scans the suffix [text] that
    starts at index [i], [last] being the best match seen so far. *)
Fixpoint rfind_from (i : Z) (text sep : string) (last : Z) : Z :=
  let last' := if startswith text sep then i else last in
  match text with
  | EmptyString => last'
  | String _ text' => rfind_from (i + 1) text' sep last'
  end.

Definition rfind (text sep : string) : Z := rfind_from 0 text sep (-1).

(** Slice bounds as Python normalises them: a negative bound counts from
    the end, and everything is clipped to [0 .. len]. *)
Definition slice_bound (s : string) (k : Z) : nat :=
  Z.to_nat (if k <? 0 then Z.max 0 (len s + k) else Z.min k (len s)).

Fixpoint take (n : nat) (s : string) : string :=
  match n, s with
  | O, _ => EmptyString
  | S _, EmptyString => EmptyString
  | S n', String c s' => String c (take n' s')
  end.

Fixpoint drop (n : nat) (s : string) : string :=
  match n, s with
  | O, _ => s
  | S _, EmptyString => EmptyString
  | S n', String _ s' => drop n' s'
  end.

(** [s[:k]] and [s[k:]] *)
Definition slice_to (s : string) (k : Z) : string := take (slice_bound s k) s.
Definition slice_from (s : string) (k : Z) : string := drop (slice_bound s k) s.

(** [sep.join(items)] *)
Fixpoint join (sep : string) (items : list string) : string :=
  match items with
  | [] => EmptyString
  | [x] => x
  | x :: rest => x +:+ sep +:+ join sep rest
  end.

End PyStr.

(** ** Tags *)

Definition PLANNING_TAG : string := "/*PLANNING*/".
Definition REASONING_TAG : string := "/*REASONING*/".
Definition ACTION_TAG : string := "/*ACTION*/".
Definition REFLECTION_TAG : string := "/*REFLECTION*/".
Definition REPLANNING_TAG : string := "/*REPLANNING*/".
Definition FINAL_ANSWER_TAG : string := "/*FINAL_ANSWER*/".

(** ** The instruction text *)

Definition newline : string := String (Ascii.ascii_of_nat 10) EmptyString.

(** A triple-quoted literal whose opening quotes are followed by a line break
    and whose closing quotes stand on a line of their own: a line break, then
    every line followed by a line break. *)
Definition text_block (lines : list string) : string :=
  newline +:+ fold_right (fun l acc => l +:+ newline +:+ acc) EmptyString lines.

Definition high_level_preamble : string :=
  text_block [
    "When answering the question, try to leverage the available tools to gather the information instead of your memorized knowledge.";
    "";
    "Follow this enhanced process when answering the question:";
    "";
    "(1) **Initial Planning Phase**: First come up with a comprehensive plan in natural language text format";
    "(2) **Execution Phase**: Use tools to execute the plan with reasoning between tool code snippets to summarize current state and determine next steps. Tool code snippets and reasoning should be interleaved with each other";
    "(3) **Reflection Phase**: After each major step or when encountering obstacles, reflect on the progress, effectiveness of the approach, and quality of results obtained";
    "(4) **Replanning Phase**: Based on reflections, adjust the plan if necessary, considering new information, alternative approaches, or course corrections";
    "(5) **Iterative Execution**: Continue with refined execution based on updated plans";
    "(6) **Final Answer**: Return one comprehensive final answer incorporating all insights gained";
    "";
    "Follow this structured format when answering the question:";
    "";
    "- **(1) " +:+ PLANNING_TAG +:+ "**: The initial planning part should be under this tag";
    "- **(2) " +:+ ACTION_TAG +:+ "**: Tool code snippets should be under this tag";
    "- **(3) " +:+ REASONING_TAG +:+ "**: Reasoning parts should be under this tag";
    "- **(4) " +:+ REFLECTION_TAG +:+ "**: Critical analysis of progress, results quality, approach effectiveness, and identification of potential issues or improvements";
    "- **(5) " +:+ REPLANNING_TAG +:+ "**: Updated plans, alternative strategies, or course corrections based on reflections and new information discovered";
    "- **(6) " +:+ FINAL_ANSWER_TAG +:+ "**: The comprehensive final answer incorporating all findings and insights";
    "";
    "**Process Flow Guidelines:**";
    "- Interleave ACTION_TAG and REASONING_TAG as you execute steps";
    "- Use REFLECTION_TAG after completing significant milestones or when encountering challenges";
    "- Follow REFLECTION_TAG with REPLANNING_TAG when adjustments to the approach are needed";
    "- Continue the ACTION → REASONING → REFLECTION → REPLANNING cycle as necessary";
    "- Multiple reflection-replanning cycles are encouraged for complex problems";
    "- End with FINAL_ANSWER_TAG containing the complete, well-reasoned response"
  ].

Definition planning_preamble : string :=
  text_block [
    PLANNING_TAG +:+ " Requirements:";
    "Create a numbered plan that breaks down the user query into actionable steps. Each step should specify which tools to use.  "
  ].

Definition reasoning_preamble : string :=
  text_block [
    "Below are the requirements for the reasoning:";
    "The reasoning makes a summary of the current trajectory based on the user query and tool outputs.";
    "Based on the tool outputs and plan, the reasoning also comes up with instructions to the next steps, making the trajectory closer to the final answer."
  ].

Definition reflection_preamble : string :=
  text_block [
    REFLECTION_TAG +:+ " Requirements - ABSOLUTELY MANDATORY:";
    "After completing your actions, you MUST include this section to:";
    "1. Evaluate if your actions achieved the intended goals";
    "2. Identify any gaps or issues in your approach";
    "3. Assess if you have enough information to answer the user's query";
    "4. Determine if replanning is necessary";
    "";
    "This section is REQUIRED - do not proceed to final answer without reflection."
  ].

Definition replanning_preamble : string :=
  text_block [
    REPLANNING_TAG +:+ " Requirements (conditional):";
    "Only if reflection reveals issues, create a revised plan and execute it with new " +:+ ACTION_TAG +:+ " and " +:+ REASONING_TAG +:+ " sections. "
  ].

Definition final_answer_preamble : string :=
  text_block [
    FINAL_ANSWER_TAG +:+ " Requirements:";
    "Provide your final answer only after completing reflection. Base your answer on execution results and reflection insights."
  ].

Definition tool_code_without_python_libraries_preamble : string :=
  text_block [
    "Below are the requirements for the tool code:";
    "";
    "**Custom Tools:** The available tools are described in the context and can be directly used.";
    "- Code must be valid self-contained Python snippets with no imports and no references to tools or Python libraries that are not in the context.";
    "- You cannot use any parameters or fields that are not explicitly defined in the APIs in the context.";
    "- The code snippets should be readable, efficient, and directly relevant to the user query and reasoning steps.";
    "- When using the tools, you should use the library name together with the function name, e.g., vertex_search.search().";
    "- If Python libraries are not provided in the context, NEVER write your own code other than the function calls using the provided tools."
  ].

Definition _build_reflection_planner_instruction : string :=
  PyStr.join (newline +:+ newline) [
    high_level_preamble;
    planning_preamble;
    reasoning_preamble;
    reflection_preamble;
    replanning_preamble;
    final_answer_preamble;
    tool_code_without_python_libraries_preamble
  ].

(** ** Parts and the object store *)

(** [types.FunctionCall]: only [name] is read by the planner. *)
Record FunctionCall := mkFunctionCall {
  name : option string
}.

(** [types.Part]: the three fields the planner reads or writes.  A field that
    was never given is [None]. *)
Record Part := mkPart {
  text : option string;
  function_call : option FunctionCall;
  thought : option bool
}.

(** [types.Part(text=t)] *)
Definition Part_of_text (t : string) : Part :=
  {| text := Some t; function_call := None; thought := None |}.

Definition with_thought (b : bool) (p : Part) : Part :=
  {| text := text p; function_call := function_call p; thought := Some b |}.

(** Truthiness of an [Optional[str]] ([None] and [''] are falsy) and the
    value of [x or '']. *)
Definition truthy_opt (o : option string) : bool :=
  match o with
  | Some s => PyStr.truthy s
  | None => false
  end.

Definition or_empty (o : option string) : string :=
  match o with
  | Some s => if PyStr.truthy s then s else EmptyString
  | None => EmptyString
  end.

(** Objects are identified by their position in the store. *)
Abbreviation ref := nat (only parsing).
Abbreviation heap := (list Part) (only parsing).

(** State monad over the store; [None] is a dangling reference, which no
    Python program can produce. *)
Definition M (A : Type) : Type := heap -> option (A * heap).

Definition ret {A} (a : A) : M A := fun h => Some (a, h).

Definition bind {A B} (m : M A) (k : A -> M B) : M B :=
  fun h => match m h with
           | Some (a, h') => k a h'
           | None => None
           end.

Notation "'let*' x ':=' m 'in' k" := (bind m (fun x => k))
  (at level 10, x pattern, m at level 100, k at level 200).

(** Reading an object through a reference. *)
Definition deref (r : ref) : M Part :=
  fun h => match h !! r with
           | Some p => Some (p, h)
           | None => None
           end.

(** Constructing an object: a new cell at the end of the store. *)
Definition alloc (p : Part) : M ref :=
  fun h => Some (length h, h ++ [p]).

(** [r.thought = b] *)
Definition set_thought (r : ref) (b : bool) : M unit :=
  fun h => match h !! r with
           | Some p => Some (tt, <[r := with_thought b p]> h)
           | None => None
           end.

(** ** The planner *)

Section Planner.

(** The host's context and request types; the planner never inspects them. *)
Variables ReadonlyContext LlmRequest CallbackContext : Type.

Definition build_planning_instruction
    (readonly_context : ReadonlyContext) (llm_request : LlmRequest) : M string :=
  ret _build_reflection_planner_instruction.

Definition _split_by_last_pattern (text separator : string) : string * string :=
  let index := PyStr.rfind text separator in
  if index =? -1 then (text, EmptyString)
  else (PyStr.slice_to text (index + PyStr.len separator),
        PyStr.slice_from text (index + PyStr.len separator)).

Definition _mark_as_thought (response_part : ref) : M unit :=
  let* p := deref response_part in
  if truthy_opt (text p) then set_thought response_part true else ret tt.

Definition narrative_tags : list string :=
  [PLANNING_TAG; REASONING_TAG; ACTION_TAG; REFLECTION_TAG; REPLANNING_TAG].

(** The test [text and FINAL_ANSWER_TAG in text]; when it succeeds the
    result carries [response_part.text]. *)
Definition text_with_final_answer (p : Part) : option string :=
  match text p with
  | Some t =>
      if PyStr.truthy t && PyStr.contains FINAL_ANSWER_TAG t then Some t else None
  | None => None
  end.

(** [preserved_parts] is a list the caller owns; appending to it is modelled
    by returning the extended list. *)
Definition _handle_non_function_call_parts
    (response_part : ref) (preserved_parts : list ref) : M (list ref) :=
  let* p := deref response_part in
  match text_with_final_answer p with
  | Some t =>
      let (reasoning_text, final_answer_text) :=
        _split_by_last_pattern t FINAL_ANSWER_TAG in
      let* preserved_parts :=
        if PyStr.truthy reasoning_text then
          let* reasoning_part := alloc (Part_of_text reasoning_text) in
          let* _ := _mark_as_thought reasoning_part in
          ret (preserved_parts ++ [reasoning_part])
        else ret preserved_parts in
      if PyStr.truthy final_answer_text then
        let* final_part := alloc (Part_of_text final_answer_text) in
        ret (preserved_parts ++ [final_part])
      else ret preserved_parts
  | None =>
      let response_text := or_empty (text p) in
      let* _ :=
        if PyStr.truthy response_text
           && existsb (PyStr.startswith response_text) narrative_tags
        then _mark_as_thought response_part
        else ret tt in
      ret (preserved_parts ++ [response_part])
  end.

(** The [for] loop: [i] is the index of the head of [parts]; the result is
    [preserved_parts] and [first_fc_part_index] as the loop leaves them. *)
Fixpoint scan_loop (i : Z) (parts : list ref) (preserved_parts : list ref)
    : M (list ref * Z) :=
  match parts with
  | [] => ret (preserved_parts, -1)
  | r :: rest =>
      let* p := deref r in
      match function_call p with
      | Some fc =>
          if negb (truthy_opt (name fc)) then
            scan_loop (i + 1) rest preserved_parts
          else ret (preserved_parts ++ [r], i)
      | None =>
          let* preserved_parts := _handle_non_function_call_parts r preserved_parts in
          scan_loop (i + 1) rest preserved_parts
      end
  end.

(** The [while] loop over the parts from index [j] on. *)
Fixpoint lookahead_loop (parts : list ref) (preserved_parts : list ref)
    : M (list ref) :=
  match parts with
  | [] => ret preserved_parts
  | r :: rest =>
      let* p := deref r in
      match function_call p with
      | Some _ => lookahead_loop rest (preserved_parts ++ [r])
      | None => ret preserved_parts
      end
  end.

Definition process_planning_response
    (callback_context : CallbackContext) (response_parts : list ref)
    : M (option (list ref)) :=
  match response_parts with
  | [] => ret None
  | _ =>
      let* (preserved_parts, first_fc_part_index) :=
        scan_loop 0 response_parts [] in
      if 0 <? first_fc_part_index then
        let j := first_fc_part_index + 1 in
        let* preserved_parts :=
          lookahead_loop (drop (Z.to_nat j) response_parts) preserved_parts in
        ret (Some preserved_parts)
      else ret (Some preserved_parts)
  end.

(** The guard in front of the [while] loop, as the [for] loop leaves it. *)
Definition lookahead_phase_runs (response_parts : list ref) (h : heap) : bool :=
  match scan_loop 0 response_parts [] h with
  | Some ((_, first_fc_part_index), _) => 0 <? first_fc_part_index
  | None => false
  end.

End Planner.

Arguments build_planning_instruction {_ _} _ _ _.
Arguments process_planning_response {_} _ _ _.

(** ** Vocabulary of the specification *)

(** [sep] occurs in [text] at index [k]. *)
Definition occurs_at (sep text : string) (k : nat) : Prop :=
  exists pre post, text = pre +:+ sep +:+ post /\ String.length pre = k.

(** The prefix-tag test of the [else] branch. *)
Definition starts_with_narrative_tag (p : Part) : bool :=
  PyStr.truthy (or_empty (text p))
  && existsb (PyStr.startswith (or_empty (text p))) narrative_tags.

(** A function call that the [for] loop keeps: its name is non-empty. *)
Definition kept (p : Part) : bool :=
  match function_call p with
  | Some fc => truthy_opt (name fc)
  | None => false
  end.

Definition is_action (p : Part) : bool :=
  match function_call p with
  | Some _ => true
  | None => false
  end.

(** What a visit of the [for] loop leaves in the cell of an input part: only
    a text part without the final-answer tag that starts with a narrative tag
    is touched, and only its flag. *)
Definition mark (p : Part) : Part :=
  match function_call p, text_with_final_answer p with
  | None, None => if starts_with_narrative_tag p then with_thought true p else p
  | _, _ => p
  end.

(** The two objects built for a text that holds the final-answer tag. *)
Definition split_cells (t : string) : list Part :=
  let (head, tail) := _split_by_last_pattern t FINAL_ANSWER_TAG in
  with_thought true (Part_of_text head)
    :: (if PyStr.truthy tail then [Part_of_text tail] else []).

(** The store [h'] extends [h]: cells are only added, and a cell of the first
    [n] is either left alone or [mark]ed. *)
Definition evolves (n : nat) (h h' : heap) : Prop :=
  (length h <= length h')%nat
  /\ forall l p, h !! l = Some p ->
       h' !! l = Some p \/ ((l < n)%nat /\ h' !! l = Some (mark p)).

(** The references that one visited input part [r] contributes to the output:
    nothing for a function call without a name, the part itself for any other
    function call and for a text without the final-answer tag, and the new
    objects of the split otherwise.  [h0] is the store on entry, [h'] the store
    on exit. *)
Definition image_of (h0 h' : heap) (r : ref) (group : list ref) : Prop :=
  exists p, h0 !! r = Some p /\ h' !! r = Some (mark p) /\
    match function_call p with
    | Some fc => group = if truthy_opt (name fc) then [r] else []
    | None =>
        match text_with_final_answer p with
        | None => group = [r]
        | Some t =>
            Forall (fun r' => (length h0 <= r')%nat) group
            /\ Forall2 (fun r' c => h' !! r' = Some c) group (split_cells t)
        end
    end.

(** The part behind [r] is not a function call that the [for] loop keeps. *)
Definition not_kept (h : heap) (r : ref) : Prop :=
  forall p, h !! r = Some p -> kept p = false.

(** The run of function calls at the front of [parts]. *)
Fixpoint leading_actions (h : heap) (parts : list ref) : list ref :=
  match parts with
  | [] => []
  | r :: rest =>
      match h !! r with
      | Some p => if is_action p then r :: leading_actions h rest else []
      | None => []
      end
  end.

(** Every reference of the input denotes an object of the store. *)
Definition well_formed (h : heap) (parts : list ref) : Prop :=
  Forall (fun r => (r < length h)%nat) parts.

(** Where a reference [r] of the output comes from: it is an object of the
    caller (a function call, or a text without the final-answer tag, whose
    cell now holds [mark p]), or a new object built from the text of an input
    part that holds the final-answer tag, that part being left as it was. *)
Definition origin (h h' : heap) (input : list ref) (r : ref) : Prop :=
  (r ∈ input /\ exists p, h !! r = Some p /\ h' !! r = Some (mark p)
                /\ (function_call p = None -> text_with_final_answer p = None))
  \/ ((length h <= r)%nat /\ exists l p t c,
        l ∈ input /\ h !! l = Some p /\ function_call p = None
        /\ text_with_final_answer p = Some t /\ h' !! l = Some p
        /\ c ∈ split_cells t /\ h' !! r = Some c).

(** What the [for] loop makes of one part of an input that holds text parts
    only. *)
Definition text_image (h h' : heap) (r : ref) (group : list ref) : Prop :=
  exists p, h !! r = Some p /\
    match text_with_final_answer p with
    | None =>
        group = [r]
        /\ exists p', h' !! r = Some p' /\ text p' = text p
             /\ (thought p' = Some true <->
                 thought p = Some true \/ starts_with_narrative_tag p = true)
    | Some t =>
        h' !! r = Some p
        /\ Forall (fun r' => (length h <= r')%nat) group
        /\ Forall2 (fun r' c => h' !! r' = Some c) group (split_cells t)
    end.

(** ** Concrete parts *)

Definition Text (s : string) : Part := Part_of_text s.

Definition Action (s : string) : Part :=
  {| text := None; function_call := Some {| name := Some s |}; thought := None |}.

(** ** Readings of the specification that the code does not meet *)

(** Text-only input: the output matches the input part by part, texts
    unchanged, flag set exactly for a narrative prefix or a final-answer tag. *)
Definition narrative_or_final (p : Part) : bool :=
  starts_with_narrative_tag p
  || match text p with
     | Some t => PyStr.contains FINAL_ANSWER_TAG t
     | None => false
     end.

Definition preserved_one_to_one (h : heap) (input : list ref) : Prop :=
  forall out h',
    process_planning_response tt input h = Some (Some out, h') ->
    Forall2 (fun r o => exists p q, h !! r = Some p /\ h' !! o = Some q
                        /\ text q = text p
                        /\ (thought q = Some true <-> narrative_or_final p = true))
            input out.

(** The same flag rule, read on the parts of the output. *)
Definition flags_follow_tags_in_output (h : heap) (input : list ref) : Prop :=
  forall out h' o q,
    process_planning_response tt input h = Some (Some out, h') ->
    o ∈ out -> h' !! o = Some q ->
    (thought q = Some true <-> narrative_or_final q = true).

(** The [while] loop runs iff a part that is not a function call stands
    before the first kept function call. *)
Definition lookahead_iff_text_before (h : heap) (input : list ref) : Prop :=
  lookahead_phase_runs input h = true <->
  exists (k : nat) (r : ref) (p : Part) (j : nat) (r' : ref) (q : Part),
    input !! k = Some r /\ h !! r = Some p /\ kept p = true
    /\ Forall (not_kept h) (take k input)
    /\ (j < k)%nat /\ input !! j = Some r' /\ h !! r' = Some q
    /\ is_action q = false.

(** A thought flag seen on a part of the output is seen on a part of the
    caller's input as well. *)
Definition thought_visible_on_input (h : heap) (input : list ref) : Prop :=
  forall out h' r p',
    process_planning_response tt input h = Some (Some out, h') ->
    r ∈ out -> h' !! r = Some p' -> thought p' = Some true ->
    exists l q, l ∈ input /\ h' !! l = Some q /\ thought q = Some true.

(** ** Further vocabulary *)

(** The text of the part behind [r], read as [text or '']. *)
Definition part_text (h : heap) (r : ref) : string :=
  match h !! r with
  | Some p => or_empty (text p)
  | None => EmptyString
  end.

(** The texts of the parts behind [rs], one after the other. *)
Definition joined_text (h : heap) (rs : list ref) : string :=
  fold_right (fun r acc => part_text h r +:+ acc) EmptyString rs.

(** A function call that the [for] loop skips: its name is missing or empty. *)
Definition unnamed_call (p : Part) : bool :=
  match function_call p with
  | Some fc => negb (truthy_opt (name fc))
  | None => false
  end.

(** * Properties *)

(** ** Strings *)

Section StringFacts.

Local Open Scope nat_scope.

(** [String.app] is never unfolded by [simpl]; these are its equations. *)
Lemma app_nil (b : string) : "" +:+ b = b.
Proof. reflexivity. Qed.

Lemma app_cons c (a b : string) : String c a +:+ b = String c (a +:+ b).
Proof. reflexivity. Qed.

Ltac simpl_app := simpl in *; rewrite ?app_cons, ?app_nil in *; simpl in *.

Lemma app_assoc' (a b c : string) : (a +:+ b) +:+ c = a +:+ b +:+ c.
Proof. induction a as [|x a IH]; simpl_app; [done | by rewrite IH]. Qed.

Lemma length_app' (a b : string) :
  String.length (a +:+ b) = String.length a + String.length b.
Proof. induction a as [|x a IH]; simpl_app; [done | by rewrite IH]. Qed.

Lemma startswith_iff (text tag : string) :
  PyStr.startswith text tag = true <-> exists rest, text = tag +:+ rest.
Proof.
  revert text. induction tag as [|c tag IH]; intros text; simpl.
  - split; [intros _; by exists text | done].
  - destruct text as [|d text].
    + split; [done | intros [rest Hrest]; discriminate].
    + destruct (Ascii.eqb_spec c d) as [->|Hne].
      * rewrite IH. split; intros [rest Hrest]; exists rest.
        -- by rewrite Hrest.
        -- by injection Hrest.
      * split; [done | intros [rest Hrest]; injection Hrest; congruence].
Qed.

Lemma occurs_at_0 (sep text : string) :
  occurs_at sep text 0 <-> PyStr.startswith text sep = true.
Proof.
  rewrite startswith_iff. split.
  - intros (pre & post & -> & Hlen). destruct pre; [|done]. by exists post.
  - intros [rest ->]. by exists "", rest.
Qed.

Lemma occurs_at_S (sep : string) c (text : string) (k : nat) :
  occurs_at sep (String c text) (S k) <-> occurs_at sep text k.
Proof.
  split.
  - intros (pre & post & Heq & Hlen). destruct pre as [|d pre]; [done|].
    simpl_app. injection Heq as -> ->. exists pre, post. split; [done | lia].
  - intros (pre & post & -> & Hlen). exists (String c pre), post.
    split; [done | simpl; lia].
Qed.

Lemma occurs_at_empty (sep : string) (k : nat) :
  occurs_at sep "" k -> k = 0.
Proof. intros (pre & post & Heq & Hlen). destruct pre; [done | discriminate]. Qed.

(** [rfind_from] returns the greatest occurrence, shifted by the start
    index, or the fallback when there is none. *)
Lemma rfind_from_spec (sep text : string) (i last : Z) :
  ((forall k, ~ occurs_at sep text k) /\ PyStr.rfind_from i text sep last = last)
  \/ (exists k, occurs_at sep text k
                /\ (forall k', occurs_at sep text k' -> k' <= k)
                /\ PyStr.rfind_from i text sep last = (i + Z.of_nat k)%Z).
Proof.
  revert i last. induction text as [|c text IH]; intros i last.
  - simpl. destruct (PyStr.startswith "" sep) eqn:Hs.
    + right. exists 0. split; [by apply occurs_at_0|].
      split; [|f_equal; lia].
      intros k' Hk'. apply occurs_at_empty in Hk'. lia.
    + left. split; [|done]. intros k Hk.
      pose proof (occurs_at_empty _ _ Hk) as ->.
      apply occurs_at_0 in Hk. congruence.
  - cbn [PyStr.rfind_from].
    set (last' := if PyStr.startswith (String c text) sep then i else last).
    destruct (IH (i + 1)%Z last') as [[Hnone Heq]|(k & Hk & Hmax & Heq)].
    + rewrite Heq. subst last'.
      destruct (PyStr.startswith (String c text) sep) eqn:Hs.
      * right. exists 0. split; [by apply occurs_at_0|].
        split; [|lia].
        intros [|k'] Hk'; [lia|]. apply occurs_at_S in Hk'. by destruct (Hnone k').
      * left. split; [|done].
        intros [|k] Hk.
        -- apply occurs_at_0 in Hk. congruence.
        -- apply occurs_at_S in Hk. by destruct (Hnone k).
    + right. exists (S k). split; [by apply occurs_at_S|].
      split; [|rewrite Heq; lia].
      intros [|k'] Hk'; [lia|]. apply occurs_at_S in Hk'.
      specialize (Hmax _ Hk'). lia.
Qed.

Lemma contains_iff (sep text : string) :
  PyStr.contains sep text = true <-> exists k, occurs_at sep text k.
Proof.
  induction text as [|c text IH]; cbn [PyStr.contains].
  - rewrite orb_false_r. rewrite <- occurs_at_0. split; [eauto|].
    intros [k Hk]. by rewrite (occurs_at_empty _ _ Hk) in Hk.
  - rewrite orb_true_iff, IH, <- occurs_at_0. split.
    + intros [H0|[k Hk]]; [eauto|]. exists (S k). by apply occurs_at_S.
    + intros [[|k] Hk]; [by left|]. right. exists k. by apply occurs_at_S in Hk.
Qed.

Lemma take_app_length (a b : string) : PyStr.take (String.length a) (a +:+ b) = a.
Proof. induction a as [|c a IH]; simpl_app; [by destruct b | by rewrite IH]. Qed.

Lemma drop_app_length (a b : string) : PyStr.drop (String.length a) (a +:+ b) = b.
Proof. induction a as [|c a IH]; simpl_app; done. Qed.

(** Two decompositions of one string: the shorter left part is a prefix of
    the longer one. *)
Lemma app_eq_app_le (a b c d : string) :
  a +:+ b = c +:+ d -> String.length a <= String.length c ->
  exists e, c = a +:+ e /\ b = e +:+ d.
Proof.
  revert c. induction a as [|x a IH]; intros c Heq Hlen; simpl_app.
  - by exists c.
  - destruct c as [|y c]; simpl_app; [lia|].
    injection Heq as -> Heq. destruct (IH c Heq) as (e & -> & ->); [lia|].
    by exists e.
Qed.

(** An occurrence that starts no later than another one lies inside the
    text up to the end of that other one. *)
Lemma occurs_at_head (sep pre post : string) (k : nat) :
  occurs_at sep (pre +:+ sep +:+ post) k -> k <= String.length pre ->
  occurs_at sep (pre +:+ sep) k.
Proof.
  intros (pre' & post' & Heq & Hlen) Hle. symmetry in Heq.
  destruct (app_eq_app_le pre' (sep +:+ post') pre (sep +:+ post) Heq)
    as (d & -> & Hd); [lia|].
  rewrite <- app_assoc' in Hd.
  destruct (app_eq_app_le sep post' (d +:+ sep) post Hd) as (e & He & _).
  { rewrite length_app'. lia. }
  exists pre', e. split; [|done]. by rewrite app_assoc', He.
Qed.

End StringFacts.

(** ** Splitting at the last occurrence *)

Lemma truthy_app_r (a b : string) : PyStr.truthy b = true -> PyStr.truthy (a +:+ b) = true.
Proof. destruct a; [done|]. by rewrite app_cons. Qed.

Lemma split_by_last_pattern_found (t sep : string) :
  PyStr.contains sep t = true ->
  exists pre post,
    t = pre +:+ sep +:+ post
    /\ (forall k, occurs_at sep t k -> (k <= String.length pre)%nat)
    /\ _split_by_last_pattern t sep = (pre +:+ sep, post).
Proof.
  intros Hin. apply contains_iff in Hin as [k0 Hk0].
  unfold _split_by_last_pattern, PyStr.rfind.
  destruct (rfind_from_spec sep t 0 (-1)) as [[Hnone _]|(k & Hk & Hmax & ->)].
  { by destruct (Hnone k0). }
  destruct Hk as (pre & post & Ht & Hlen). exists pre, post.
  split; [done|]. split; [by rewrite Hlen|].
  destruct (Z.eqb_spec (0 + Z.of_nat k) (-1)) as [Hneg|_]; [lia|].
  assert (PyStr.slice_bound t (0 + Z.of_nat k + PyStr.len sep)
          = String.length (pre +:+ sep)) as Hb.
  { unfold PyStr.slice_bound, PyStr.len.
    destruct (Z.ltb_spec (0 + Z.of_nat k + Z.of_nat (String.length sep)) 0); [lia|].
    rewrite Ht, !length_app'. lia. }
  unfold PyStr.slice_to, PyStr.slice_from. rewrite Hb.
  rewrite Ht at 1 2. rewrite <- app_assoc'.
  by rewrite take_app_length, drop_app_length.
Qed.

Lemma split_by_last_pattern_absent (t sep : string) :
  PyStr.contains sep t = false -> _split_by_last_pattern t sep = (t, "").
Proof.
  intros Hin. unfold _split_by_last_pattern, PyStr.rfind.
  destruct (rfind_from_spec sep t 0 (-1)) as [[_ ->]|(k & Hk & _)]; [done|].
  assert (PyStr.contains sep t = true) by (apply contains_iff; eauto).
  congruence.
Qed.

(** ** One text part *)

Lemma text_with_final_answer_Some (p : Part) (t : string) :
  text_with_final_answer p = Some t <->
  text p = Some t /\ PyStr.contains FINAL_ANSWER_TAG t = true.
Proof.
  unfold text_with_final_answer. destruct (text p) as [s|].
  2: { split; [done | by intros [? _]]. }
  destruct (PyStr.contains FINAL_ANSWER_TAG s) eqn:Hc.
  - destruct s; [done|]. simpl. split.
    + intros [= <-]. done.
    + intros [[= <-] _]. done.
  - rewrite andb_false_r. split; [done|]. intros [[= <-] Ht]. congruence.
Qed.

Lemma text_with_final_answer_None (p : Part) :
  text_with_final_answer p = None <->
  forall t, text p = Some t -> PyStr.contains FINAL_ANSWER_TAG t = false.
Proof.
  split.
  - intros Hn t Ht. destruct (PyStr.contains FINAL_ANSWER_TAG t) eqn:Hc; [|done].
    assert (text_with_final_answer p = Some t) by by apply text_with_final_answer_Some.
    congruence.
  - intros Hn. destruct (text_with_final_answer p) as [t|] eqn:Hf; [|done].
    apply text_with_final_answer_Some in Hf as [Ht Hc]. rewrite (Hn _ Ht) in Hc. done.
Qed.

(** The cells built for the two halves of a split. *)
Lemma handle_final (h : heap) (r : ref) (p : Part) (t : string) (preserved_parts : list ref) :
  h !! r = Some p -> text_with_final_answer p = Some t ->
  exists pre post,
    t = pre +:+ FINAL_ANSWER_TAG +:+ post
    /\ (forall k, occurs_at FINAL_ANSWER_TAG t k -> (k <= String.length pre)%nat)
    /\ _split_by_last_pattern t FINAL_ANSWER_TAG = (pre +:+ FINAL_ANSWER_TAG, post)
    /\ _handle_non_function_call_parts r preserved_parts h =
       Some (preserved_parts ++ length h :: (if PyStr.truthy post then [S (length h)] else []),
             h ++ with_thought true (Part_of_text (pre +:+ FINAL_ANSWER_TAG))
               :: (if PyStr.truthy post then [Part_of_text post] else [])).
Proof.
  intros Hr Hf. pose proof Hf as [Ht Hc]%text_with_final_answer_Some.
  destruct (split_by_last_pattern_found _ _ Hc) as (pre & post & Heq & Hmax & Hsplit).
  exists pre, post. do 3 (split; [done|]).
  unfold _handle_non_function_call_parts, bind, deref. rewrite Hr, Hf, Hsplit.
  rewrite truthy_app_r by reflexivity.
  unfold alloc at 1, _mark_as_thought, bind, deref, set_thought.
  rewrite list_lookup_middle by reflexivity. cbn [text Part_of_text truthy_opt].
  rewrite truthy_app_r by reflexivity. rewrite list_lookup_middle by reflexivity.
  rewrite insert_app_r_alt by reflexivity. rewrite Nat.sub_diag. cbn [insert list_insert].
  unfold ret. destruct (PyStr.truthy post).
  - unfold alloc. rewrite length_app, Nat.add_1_r.
    by rewrite <- (assoc_L (++) preserved_parts), <- (assoc_L (++) h).
  - done.
Qed.

Lemma handle_no_tag (h : heap) (r : ref) (p : Part) (preserved_parts : list ref) :
  h !! r = Some p -> text_with_final_answer p = None ->
  _handle_non_function_call_parts r preserved_parts h =
  Some (preserved_parts ++ [r],
        <[r := if starts_with_narrative_tag p then with_thought true p else p]> h).
Proof.
  intros Hr Hf.
  unfold _handle_non_function_call_parts, bind, deref. rewrite Hr, Hf.
  fold (starts_with_narrative_tag p).
  destruct (starts_with_narrative_tag p) eqn:Hn.
  - unfold _mark_as_thought, bind, deref, set_thought. rewrite Hr.
    assert (truthy_opt (text p) = true) as ->.
    { unfold starts_with_narrative_tag, or_empty in Hn.
      destruct (text p) as [s|]; [|done]. simpl. by destruct (PyStr.truthy s). }
    by rewrite Hr.
  - unfold ret. by rewrite list_insert_id.
Qed.

Lemma handle_plain (h : heap) (r : ref) (p : Part) (preserved_parts : list ref) :
  h !! r = Some p -> function_call p = None -> text_with_final_answer p = None ->
  _handle_non_function_call_parts r preserved_parts h =
  Some (preserved_parts ++ [r], <[r := mark p]> h).
Proof.
  intros Hr Hfc Hf. rewrite (handle_no_tag h r p) by done.
  unfold mark. by rewrite Hfc, Hf.
Qed.

(** ** In-place marking *)

Lemma mark_text (p : Part) : text (mark p) = text p.
Proof.
  unfold mark. destruct (function_call p), (text_with_final_answer p);
    try done. by destruct (starts_with_narrative_tag p).
Qed.

Lemma mark_function_call (p : Part) : function_call (mark p) = function_call p.
Proof.
  unfold mark. destruct (function_call p) eqn:Hfc, (text_with_final_answer p);
    try done. by destruct (starts_with_narrative_tag p).
Qed.

Lemma mark_cases (p : Part) : mark p = p \/ mark p = with_thought true p.
Proof.
  unfold mark. destruct (function_call p), (text_with_final_answer p); auto.
  destruct (starts_with_narrative_tag p); auto.
Qed.

Lemma text_with_final_answer_mark (p : Part) :
  text_with_final_answer (mark p) = text_with_final_answer p.
Proof. unfold text_with_final_answer. by rewrite mark_text. Qed.

Lemma starts_with_narrative_tag_mark (p : Part) :
  starts_with_narrative_tag (mark p) = starts_with_narrative_tag p.
Proof. unfold starts_with_narrative_tag. by rewrite mark_text. Qed.

Lemma mark_idemp (p : Part) : mark (mark p) = mark p.
Proof.
  unfold mark at 1.
  rewrite mark_function_call, text_with_final_answer_mark, starts_with_narrative_tag_mark.
  unfold mark.
  destruct (function_call p), (text_with_final_answer p); try done.
  by destruct (starts_with_narrative_tag p).
Qed.

Lemma mark_action (p : Part) : is_action p = true -> mark p = p.
Proof. unfold is_action, mark. by destruct (function_call p). Qed.

Lemma mark_final (p : Part) (t : string) : text_with_final_answer p = Some t -> mark p = p.
Proof. unfold mark. intros ->. by destruct (function_call p). Qed.

(** ** Evolution of the store *)

Lemma evolves_refl (n : nat) (h : heap) : evolves n h h.
Proof. split; [done | auto]. Qed.

Lemma evolves_trans (n : nat) (h1 h2 h3 : heap) :
  evolves n h1 h2 -> evolves n h2 h3 -> evolves n h1 h3.
Proof.
  intros [Hl12 H12] [Hl23 H23]. split; [lia|].
  intros l p Hl. destruct (H12 l p Hl) as [H2|[Hn H2]].
  - auto.
  - destruct (H23 l _ H2) as [H3|[_ H3]]; [auto|].
    rewrite mark_idemp in H3. auto.
Qed.

Lemma evolves_marked (n : nat) (h h' : heap) (l : nat) (p : Part) :
  evolves n h h' -> h !! l = Some (mark p) -> h' !! l = Some (mark p).
Proof.
  intros [_ H] Hl. destruct (H l _ Hl) as [?|[_ ?]]; [done|].
  by rewrite <- (mark_idemp p).
Qed.

Lemma evolves_beyond (n : nat) (h h' : heap) (l : nat) (p : Part) :
  evolves n h h' -> (n <= l)%nat -> h !! l = Some p -> h' !! l = Some p.
Proof. intros [_ H] Hn Hl. destruct (H l _ Hl) as [?|[? _]]; [done | lia]. Qed.

Lemma evolves_current (n : nat) (h0 h : heap) (r : nat) (p0 : Part) :
  evolves n h0 h -> h0 !! r = Some p0 ->
  exists p, h !! r = Some p /\ (p = p0 \/ p = mark p0) /\ mark p = mark p0
            /\ text p = text p0 /\ function_call p = function_call p0.
Proof.
  intros [_ H] Hr. destruct (H r _ Hr) as [?|[_ ?]].
  - exists p0. auto.
  - exists (mark p0). rewrite mark_idemp, mark_text, mark_function_call. auto.
Qed.

Lemma evolves_insert_mark (n : nat) (h : heap) (r : nat) (p : Part) :
  (r < n)%nat -> h !! r = Some p -> evolves n h (<[r := mark p]> h).
Proof.
  intros Hn Hr. split; [by rewrite length_insert|].
  intros l q Hl. destruct (decide (l = r)) as [->|Hne].
  - right. split; [done|]. rewrite list_lookup_insert_eq by by eapply lookup_lt_Some.
    congruence.
  - left. by rewrite list_lookup_insert_ne.
Qed.

Lemma evolves_app (n : nat) (h extra : heap) : evolves n h (h ++ extra).
Proof.
  split; [rewrite length_app; lia|]. intros l p Hl. left. by apply lookup_app_l_Some.
Qed.

Lemma text_with_final_answer_ext (p q : Part) :
  text p = text q -> text_with_final_answer p = text_with_final_answer q.
Proof. unfold text_with_final_answer. by intros ->. Qed.

(** ** The [for] loop *)

Lemma image_of_evolves (h0 h1 h' : heap) (r : nat) (group : list nat) :
  evolves (length h0) h1 h' -> image_of h0 h1 r group -> image_of h0 h' r group.
Proof.
  intros Hev (p & Hp & Hm & Hg). exists p. split; [done|].
  split; [by eapply evolves_marked|].
  destruct (function_call p); [done|]. destruct (text_with_final_answer p); [|done].
  destruct Hg as [Hnew Hcells]. split; [done|].
  revert Hnew. induction Hcells as [|r' c rs cs Hrc _ IH]; intros Hnew; [constructor|].
  inversion Hnew; subst. constructor; [by eapply evolves_beyond | by apply IH].
Qed.

Lemma scan_loop_spec (h0 : heap) (parts : list nat) :
  forall (i : Z) (preserved_parts : list nat) (h : heap),
  evolves (length h0) h0 h -> well_formed h0 parts ->
  exists (m : nat) (groups : list (list nat)) (idx : Z) (h' : heap),
    scan_loop i parts preserved_parts h
      = Some ((preserved_parts ++ concat groups, idx), h')
    /\ evolves (length h0) h h'
    /\ Forall2 (image_of h0 h') (take m parts) groups
    /\ ((idx = -1 /\ m = length parts /\ Forall (not_kept h0) parts)
        \/ (exists (k : nat) (r : nat) (p : Part),
              m = S k /\ idx = i + Z.of_nat k /\ parts !! k = Some r
              /\ h0 !! r = Some p /\ kept p = true
              /\ Forall (not_kept h0) (take k parts))).
Proof.
  induction parts as [|r rest IH]; intros i pres h Hev Hwf.
  { exists 0%nat, [], (-1), h. simpl. unfold ret. rewrite app_nil_r.
    split; [done|]. split; [apply evolves_refl|]. split; [constructor|].
    left. by repeat split. }
  inversion Hwf as [|? ? Hr Hwf']; subst.
  apply lookup_lt_is_Some in Hr as [p0 Hp0].
  destruct (evolves_current _ _ _ _ _ Hev Hp0) as (p & Hp & Hcur & Hmark & Htext & Hfc).
  assert (mark p0 = p0 -> h !! r = Some (mark p0)) as Hsame.
  { intros Hid. rewrite Hid. destruct Hcur as [->| ->]; [done | by rewrite Hid in Hp]. }
  assert (Hnk : forall l, kept p0 = false -> Forall (not_kept h0) l ->
                Forall (not_kept h0) (r :: l)).
  { intros l Hk Hrest. constructor; [|done]. intros q Hq. congruence. }
  assert (Hlater : forall (h1 : heap) (g : list nat),
    kept p0 = false -> evolves (length h0) h h1 -> image_of h0 h1 r g ->
    exists m groups idx h',
      scan_loop (i + 1) rest (pres ++ g) h1 = Some ((pres ++ concat groups, idx), h')
      /\ evolves (length h0) h h'
      /\ Forall2 (image_of h0 h') (take m (r :: rest)) groups
      /\ ((idx = -1 /\ m = length (r :: rest) /\ Forall (not_kept h0) (r :: rest))
          \/ (exists k r' p',
                m = S k /\ idx = i + Z.of_nat k /\ (r :: rest) !! k = Some r'
                /\ h0 !! r' = Some p' /\ kept p' = true
                /\ Forall (not_kept h0) (take k (r :: rest))))).
  { intros h1 g Hk Hev1 Himg.
    destruct (IH (i + 1) (pres ++ g) h1) as (m & groups & idx & h' & Hscan & Hev' & Hgs & Hidx);
      [by eapply evolves_trans | done |].
    exists (S m), (g :: groups), idx, h'.
    split; [by rewrite Hscan; simpl; rewrite (assoc_L (++))|].
    split; [by eapply evolves_trans|].
    split; [simpl; constructor; [by eapply image_of_evolves | done]|].
    destruct Hidx as [(-> & -> & Hall)|(k & r' & p' & -> & -> & Hk' & Hp' & Hkept & Hall)].
    - left. auto.
    - right. exists (S k), r', p'.
      split; [done|]. split; [lia|]. do 3 (split; [done|]).
      rewrite firstn_cons. auto. }
  cbn [scan_loop]. unfold bind at 1, deref. rewrite Hp, Hfc.
  destruct (function_call p0) as [fc|] eqn:Hfc0.
  - assert (mark p0 = p0) as Hid by (apply mark_action; unfold is_action; by rewrite Hfc0).
    destruct (truthy_opt (name fc)) eqn:Hname; simpl.
    + exists 1%nat, [[r]], i, h. simpl.
      split; [done|]. split; [apply evolves_refl|].
      split.
      { rewrite take_0. constructor; [|constructor]. exists p0.
        rewrite Hfc0, Hname. auto. }
      right. exists 0%nat, r, p0.
      split; [done|]. split; [lia|]. do 2 (split; [done|]).
      split; [|constructor]. unfold kept. by rewrite Hfc0.
    + assert (kept p0 = false) as Hk by (unfold kept; by rewrite Hfc0).
      destruct (Hlater h [] Hk (evolves_refl _ _)) as (m & gs & idx & h' & Hs & Hrest).
      { exists p0. rewrite Hfc0, Hname. auto. }
      rewrite app_nil_r in Hs. exists m, gs, idx, h'. auto.
  - assert (kept p0 = false) as Hk by (unfold kept; by rewrite Hfc0).
    assert (function_call p = None) as Hfcp by congruence.
    pose proof (text_with_final_answer_ext _ _ Htext) as Hfe.
    destruct (text_with_final_answer p0) as [t|] eqn:Hf0.
    + assert (mark p0 = p0) as Hid by by eapply mark_final.
      destruct (handle_final h r p t pres Hp Hfe) as (pre & post & _ & _ & Hsplit & Hh).
      unfold bind. rewrite Hh.
      eapply Hlater; [done | apply evolves_app |].
      exists p0. split; [done|]. split; [by apply lookup_app_l_Some, Hsame|].
      rewrite Hfc0, Hf0. unfold split_cells. rewrite Hsplit.
      destruct Hev as [Hlen _].
      assert (forall c cs, (h ++ c :: cs) !! length h = Some c) as Hhead
        by (intros; by apply list_lookup_middle).
      assert (forall c c', (h ++ [c; c']) !! S (length h) = Some c') as Htail.
      { intros. by rewrite lookup_app_r, Nat.sub_succ_l, Nat.sub_diag by lia. }
      destruct (PyStr.truthy post); split; repeat constructor; auto; lia.
    + unfold bind. rewrite (handle_plain h r p pres Hp Hfcp Hfe).
      eapply Hlater; [done | by apply evolves_insert_mark; [eapply lookup_lt_Some|]|].
      exists p0. split; [done|].
      split; [rewrite Hmark; apply list_lookup_insert_eq; by eapply lookup_lt_Some|].
      by rewrite Hfc0, Hf0.
Qed.

(** ** The [while] loop *)

Lemma lookahead_loop_spec (h0 : heap) (parts : list nat) :
  forall (preserved_parts : list nat) (h : heap),
  evolves (length h0) h0 h -> well_formed h0 parts ->
  lookahead_loop parts preserved_parts h
    = Some (preserved_parts ++ leading_actions h0 parts, h).
Proof.
  induction parts as [|r rest IH]; intros pres h Hev Hwf; simpl.
  { unfold ret. by rewrite app_nil_r. }
  inversion Hwf as [|? ? Hr Hwf']; subst.
  apply lookup_lt_is_Some in Hr as [p0 Hp0].
  destruct (evolves_current _ _ _ _ _ Hev Hp0) as (p & Hp & _ & _ & _ & Hfc).
  unfold bind, deref. rewrite Hp, Hp0, Hfc. unfold is_action.
  destruct (function_call p0).
  - rewrite IH by done. by rewrite <- (assoc_L (++)).
  - unfold ret. by rewrite app_nil_r.
Qed.

(** The run consists of function calls, is a prefix of [parts], and is
    followed, if by anything, by a part that is not a function call. *)
Lemma leading_actions_spec (h : heap) (parts : list nat) :
  well_formed h parts ->
  exists rest,
    parts = leading_actions h parts ++ rest
    /\ Forall (fun r => exists p, h !! r = Some p /\ is_action p = true)
              (leading_actions h parts)
    /\ match rest with
       | [] => True
       | r :: _ => exists p, h !! r = Some p /\ is_action p = false
       end.
Proof.
  induction parts as [|r rest IH]; intros Hwf; simpl.
  { exists []. by repeat split. }
  inversion Hwf as [|? ? Hr Hwf']; subst.
  apply lookup_lt_is_Some in Hr as [p Hp]. rewrite Hp.
  destruct (is_action p) eqn:Ha.
  - destruct (IH Hwf') as (rest' & Heq & Hall & Hnext). exists rest'.
    split; [simpl; by rewrite <- Heq|]. split; [|done].
    constructor; [by exists p | done].
  - exists (r :: rest). split; [done|]. split; [constructor|]. by exists p.
Qed.

(** ** The whole method *)

Lemma well_formed_drop (h : heap) (n : nat) (parts : list nat) :
  well_formed h parts -> well_formed h (drop n parts).
Proof.
  unfold well_formed. rewrite !Forall_forall. intros H r Hr.
  apply H. by eapply subseteq_drop.
Qed.

Lemma process_planning_response_spec
    {CallbackContext : Type} (callback_context : CallbackContext)
    (h : heap) (response_parts : list nat) :
  well_formed h response_parts -> response_parts <> [] ->
  exists (m : nat) (groups : list (list nat)) (idx : Z) (h' : heap),
    scan_loop 0 response_parts [] h = Some ((concat groups, idx), h')
    /\ process_planning_response callback_context response_parts h
       = Some (Some (concat groups ++
                     if 0 <? idx
                     then leading_actions h (drop (Z.to_nat (idx + 1)) response_parts)
                     else []), h')
    /\ evolves (length h) h h'
    /\ Forall2 (image_of h h') (take m response_parts) groups
    /\ ((idx = -1 /\ m = length response_parts /\ Forall (not_kept h) response_parts)
        \/ (exists (k : nat) (r : nat) (p : Part),
              m = S k /\ idx = Z.of_nat k /\ response_parts !! k = Some r
              /\ h !! r = Some p /\ kept p = true
              /\ Forall (not_kept h) (take k response_parts))).
Proof.
  intros Hwf Hne.
  destruct (scan_loop_spec h response_parts 0 [] h (evolves_refl _ _) Hwf)
    as (m & groups & idx & h' & Hscan & Hev & Himg & Hidx).
  simpl in Hscan. exists m, groups, idx, h'.
  split; [done|]. split; [|split; [done|split; [done|]]].
  - unfold process_planning_response.
    destruct response_parts as [|r0 rest0]; [done|].
    unfold bind at 1. rewrite Hscan.
    destruct (0 <? idx).
    + unfold bind. rewrite (lookahead_loop_spec h) by (done || by apply well_formed_drop).
      done.
    + unfold ret. by rewrite app_nil_r.
  - destruct Hidx as [?|(k & r & p & ? & ? & ?)]; [by left|].
    right. exists k, r, p. split; [done|]. split; [lia | done].
Qed.

(** Where an output reference comes from. *)
Lemma elem_of_groups {A B} (P : A -> list B -> Prop) (l : list A)
    (groups : list (list B)) (y : B) :
  Forall2 P l groups -> y ∈ concat groups ->
  exists x g, x ∈ l /\ P x g /\ y ∈ g.
Proof.
  induction 1 as [|x g l gs HP _ IH]; simpl.
  - by intros ?%elem_of_nil.
  - intros [Hy|Hy]%elem_of_app.
    + exists x, g. split; [apply elem_of_cons; auto | done].
    + destruct (IH Hy) as (x' & g' & Hx' & HP' & Hy'). exists x', g'.
      split; [apply elem_of_cons; auto | done].
Qed.

Lemma elem_of_leading_actions (h : heap) (parts : list nat) (r : nat) :
  r ∈ leading_actions h parts ->
  r ∈ parts /\ exists p, h !! r = Some p /\ is_action p = true.
Proof.
  induction parts as [|r0 rest IH]; simpl; [by intros ?%elem_of_nil|].
  destruct (h !! r0) as [p|] eqn:Hp; [|by intros ?%elem_of_nil].
  destruct (is_action p) eqn:Ha; [|by intros ?%elem_of_nil].
  intros [->|Hr]%elem_of_cons.
  - split; [apply elem_of_cons; auto | by exists p].
  - destruct (IH Hr) as [Hin Hex]. split; [apply elem_of_cons; auto | done].
Qed.

Lemma Forall2_elem_of_l {A B} (P : A -> B -> Prop) (l : list A) (k : list B) (x : A) :
  Forall2 P l k -> x ∈ l -> exists y, y ∈ k /\ P x y.
Proof.
  induction 1 as [|a b l k HP _ IH]; [by intros ?%elem_of_nil|].
  intros [->|Hx]%elem_of_cons.
  - exists b. split; [apply elem_of_cons; auto | done].
  - destruct (IH Hx) as (y & Hy & HPy). exists y.
    split; [apply elem_of_cons; auto | done].
Qed.

Lemma image_of_origin (h h' : heap) (input : list nat) (l r : nat) (g : list nat) :
  l ∈ input -> image_of h h' l g -> r ∈ g -> origin h h' input r.
Proof.
  intros Hl (p & Hp & Hm & Hg) Hr.
  destruct (function_call p) as [fc|] eqn:Hfc.
  - destruct (truthy_opt (name fc)); subst g; [|by apply elem_of_nil in Hr].
    apply list_elem_of_singleton in Hr as ->. left. split; [done|].
    exists p. rewrite Hfc. by repeat split.
  - destruct (text_with_final_answer p) as [t|] eqn:Hf.
    + destruct Hg as [Hnew Hcells]. right.
      split; [by eapply Forall_forall in Hnew|].
      destruct (Forall2_elem_of_l _ _ _ _ Hcells Hr) as (c & Hc & Hrc).
      exists l, p, t, c. rewrite (mark_final _ _ Hf) in Hm. by repeat split.
    + subst g. apply list_elem_of_singleton in Hr as ->. left. split; [done|].
      exists p. by repeat split.
Qed.

(** The method returns on every well-formed input; what it returns and what
    it leaves in the store. *)
Lemma process_planning_response_total
    {CallbackContext : Type} (callback_context : CallbackContext)
    (h : heap) (response_parts : list nat) :
  well_formed h response_parts ->
  exists (res : option (list nat)) (h' : heap),
    process_planning_response callback_context response_parts h = Some (res, h')
    /\ evolves (length h) h h'
    /\ (res = None <-> response_parts = [])
    /\ forall out, res = Some out ->
         forall r, r ∈ out -> origin h h' response_parts r.
Proof.
  intros Hwf. destruct (decide (response_parts = [])) as [->|Hne].
  { exists None, h. split; [done|]. split; [apply evolves_refl|]. by split. }
  destruct (process_planning_response_spec callback_context h response_parts Hwf Hne)
    as (m & groups & idx & h' & _ & Hrun & Hev & Himg & _).
  eexists _, h'. split; [exact Hrun|]. split; [done|]. split; [by split|].
  intros out [= <-] r [Hr|Hr]%elem_of_app.
  - destruct (elem_of_groups _ _ _ _ Himg Hr) as (l & g & Hl & Hlg & Hrg).
    eapply image_of_origin; [|done..]. by eapply subseteq_take.
  - destruct (0 <? idx); [|by apply elem_of_nil in Hr].
    apply elem_of_leading_actions in Hr as [Hin (p & Hp & Ha)].
    left. split; [by eapply subseteq_drop|]. exists p. split; [done|].
    split.
    + destruct Hev as [_ Hev]. rewrite (mark_action _ Ha).
      destruct (Hev _ _ Hp) as [?|[_ ?]]; [done|]. by rewrite <- (mark_action p Ha).
    + unfold is_action in Ha. by destruct (function_call p).
Qed.

(** * The claims *)

(** C1.  Text classification of a part whose text holds the final-answer tag:
    the text is cut right after the last occurrence of the tag.  The head (up
    to and including the tag, so it holds every occurrence of the tag) is
    emitted as a new part with the thought flag set; the tail (what follows)
    is emitted as a new part without the flag, and only when it is non-empty,
    so a text that ends with the tag yields the head alone. *)
Theorem C1_final_answer_split
    (h : heap) (r : ref) (p : Part) (t : string) (preserved_parts : list ref) :
  h !! r = Some p -> text p = Some t ->
  PyStr.contains FINAL_ANSWER_TAG t = true ->
  exists head tail : string,
    _split_by_last_pattern t FINAL_ANSWER_TAG = (head, tail)
    /\ t = head +:+ tail
    /\ (exists pre, head = pre +:+ FINAL_ANSWER_TAG
          /\ forall k, occurs_at FINAL_ANSWER_TAG t k ->
               (k <= String.length pre)%nat /\ occurs_at FINAL_ANSWER_TAG head k)
    /\ _handle_non_function_call_parts r preserved_parts h =
       Some (preserved_parts
               ++ length h :: (if PyStr.truthy tail then [S (length h)] else []),
             h ++ {| text := Some head; function_call := None; thought := Some true |}
               :: (if PyStr.truthy tail
                   then [{| text := Some tail; function_call := None; thought := None |}]
                   else [])).
Proof.
  intros Hr Ht Hc.
  assert (text_with_final_answer p = Some t) as Hf by by apply text_with_final_answer_Some.
  destruct (handle_final h r p t preserved_parts Hr Hf)
    as (pre & post & Heq & Hmax & Hsplit & Hrun).
  exists (pre +:+ FINAL_ANSWER_TAG), post.
  split; [done|]. split; [by rewrite app_assoc'|]. split; [|done].
  exists pre. split; [done|]. intros k Hk. split; [by apply Hmax|].
  apply (occurs_at_head _ pre post); [by rewrite <- Heq | by apply Hmax].
Qed.

Lemma C1_final_answer_split_witness :
  exists head tail : string,
    _split_by_last_pattern "a/*FINAL_ANSWER*/b/*FINAL_ANSWER*/c" FINAL_ANSWER_TAG
      = (head, tail)
    /\ "a/*FINAL_ANSWER*/b/*FINAL_ANSWER*/c" = head +:+ tail
    /\ (exists pre, head = pre +:+ FINAL_ANSWER_TAG
          /\ forall k, occurs_at FINAL_ANSWER_TAG "a/*FINAL_ANSWER*/b/*FINAL_ANSWER*/c" k ->
               (k <= String.length pre)%nat /\ occurs_at FINAL_ANSWER_TAG head k)
    /\ _handle_non_function_call_parts 0%nat []
         [Text "a/*FINAL_ANSWER*/b/*FINAL_ANSWER*/c"] =
       Some ([] ++ 1%nat :: (if PyStr.truthy tail then [2%nat] else []),
             [Text "a/*FINAL_ANSWER*/b/*FINAL_ANSWER*/c"]
               ++ {| text := Some head; function_call := None; thought := Some true |}
               :: (if PyStr.truthy tail
                   then [{| text := Some tail; function_call := None; thought := None |}]
                   else [])).
Proof.
  apply (C1_final_answer_split [Text "a/*FINAL_ANSWER*/b/*FINAL_ANSWER*/c"] 0%nat
           (Text "a/*FINAL_ANSWER*/b/*FINAL_ANSWER*/c")
           "a/*FINAL_ANSWER*/b/*FINAL_ANSWER*/c" []); reflexivity.
Defined.

(** The two examples of the specification. *)
Example split_reflection_example :
  _split_by_last_pattern
    "/*REFLECTION*/ progress is good /*FINAL_ANSWER*/ The answer is 42"
    FINAL_ANSWER_TAG
  = ("/*REFLECTION*/ progress is good /*FINAL_ANSWER*/", " The answer is 42").
Proof. reflexivity. Qed.

Example split_two_occurrences_example :
  _split_by_last_pattern "a/*FINAL_ANSWER*/b/*FINAL_ANSWER*/c" FINAL_ANSWER_TAG
  = ("a/*FINAL_ANSWER*/b/*FINAL_ANSWER*/", "c").
Proof. reflexivity. Qed.

(** C6.  The final-answer test comes first.  When the text holds the
    final-answer tag, the part itself is neither marked nor emitted, whatever
    its text starts with: the store only grows by the objects of the split and
    the output by references to them.  When the tag is absent, the part itself
    is emitted, and its flag is set exactly when its text starts with one of
    the five narrative tags. *)
Theorem C6_final_answer_first
    (h : heap) (r : ref) (p : Part) (preserved_parts : list ref) :
  h !! r = Some p ->
  exists (out : list ref) (h' : heap),
    _handle_non_function_call_parts r preserved_parts h = Some (out, h')
    /\ (forall t, text p = Some t -> PyStr.contains FINAL_ANSWER_TAG t = true ->
          h' = h ++ split_cells t
          /\ out = preserved_parts ++ seq (length h) (length (split_cells t))
          /\ h' !! r = Some p)
    /\ ((forall t, text p = Some t -> PyStr.contains FINAL_ANSWER_TAG t = false) ->
          h' = <[r := if starts_with_narrative_tag p then with_thought true p else p]> h
          /\ out = preserved_parts ++ [r]).
Proof.
  intros Hr. destruct (text_with_final_answer p) as [t|] eqn:Hf.
  - destruct (handle_final h r p t preserved_parts Hr Hf)
      as (pre & post & _ & _ & Hsplit & Hrun).
    eexists _, _. split; [exact Hrun|]. split.
    + intros t' Ht' _. apply text_with_final_answer_Some in Hf as [Ht _].
      assert (t' = t) as -> by congruence.
      unfold split_cells. rewrite Hsplit.
      split; [done|]. split; [by destruct (PyStr.truthy post)|].
      by apply lookup_app_l_Some.
    + intros Habs. apply text_with_final_answer_Some in Hf as [Ht Hc].
      rewrite (Habs _ Ht) in Hc. done.
  - rewrite (handle_no_tag h r p preserved_parts Hr Hf).
    eexists _, _. split; [done|]. split; [|done].
    intros t Ht Hc. pose proof (proj1 (text_with_final_answer_None p) Hf t Ht). congruence.
Qed.

Lemma C6_final_answer_first_witness :
  exists (out : list ref) (h' : heap),
    _handle_non_function_call_parts 0%nat []
      [Text "/*REFLECTION*/ progress is good /*FINAL_ANSWER*/ The answer is 42"]
      = Some (out, h')
    /\ (forall t,
          text (Text "/*REFLECTION*/ progress is good /*FINAL_ANSWER*/ The answer is 42")
            = Some t ->
          PyStr.contains FINAL_ANSWER_TAG t = true ->
          h' = [Text "/*REFLECTION*/ progress is good /*FINAL_ANSWER*/ The answer is 42"]
                 ++ split_cells t
          /\ out = [] ++ seq 1 (length (split_cells t))
          /\ h' !! 0%nat
             = Some (Text "/*REFLECTION*/ progress is good /*FINAL_ANSWER*/ The answer is 42"))
    /\ ((forall t,
           text (Text "/*REFLECTION*/ progress is good /*FINAL_ANSWER*/ The answer is 42")
             = Some t ->
           PyStr.contains FINAL_ANSWER_TAG t = false) ->
          h' = <[0%nat :=
                   if starts_with_narrative_tag
                        (Text "/*REFLECTION*/ progress is good /*FINAL_ANSWER*/ The answer is 42")
                   then with_thought true
                          (Text "/*REFLECTION*/ progress is good /*FINAL_ANSWER*/ The answer is 42")
                   else Text "/*REFLECTION*/ progress is good /*FINAL_ANSWER*/ The answer is 42"]>
                 [Text "/*REFLECTION*/ progress is good /*FINAL_ANSWER*/ The answer is 42"]
          /\ out = [] ++ [0%nat]).
Proof.
  apply (C6_final_answer_first
           [Text "/*REFLECTION*/ progress is good /*FINAL_ANSWER*/ The answer is 42"]
           0%nat
           (Text "/*REFLECTION*/ progress is good /*FINAL_ANSWER*/ The answer is 42") []).
  reflexivity.
Defined.

(** A text with both a narrative prefix and the final-answer tag: the part
    keeps its unset flag and only the two new objects are emitted. *)
Example final_answer_first_example :
  starts_with_narrative_tag
    (Text "/*REFLECTION*/ progress is good /*FINAL_ANSWER*/ The answer is 42") = true
  /\ _handle_non_function_call_parts 0%nat []
       [Text "/*REFLECTION*/ progress is good /*FINAL_ANSWER*/ The answer is 42"]
     = Some ([1; 2]%nat,
             [Text "/*REFLECTION*/ progress is good /*FINAL_ANSWER*/ The answer is 42";
              with_thought true (Text "/*REFLECTION*/ progress is good /*FINAL_ANSWER*/");
              Text " The answer is 42"]).
Proof. split; reflexivity. Qed.

(** C8.  The instruction builder reads neither of its arguments nor the
    store: any two calls return the same string and leave the store as it
    was. *)
Theorem C8_instruction_is_constant
    (ReadonlyContext LlmRequest : Type)
    (readonly_context1 readonly_context2 : ReadonlyContext)
    (llm_request1 llm_request2 : LlmRequest) (h1 h2 : heap) :
  exists s : string,
    build_planning_instruction readonly_context1 llm_request1 h1 = Some (s, h1)
    /\ build_planning_instruction readonly_context2 llm_request2 h2 = Some (s, h2).
Proof. by exists _build_reflection_planner_instruction. Qed.

(** [sep.join] puts the separator between neighbours and nowhere else. *)
Lemma join_nil (sep : string) : PyStr.join sep [] = "".
Proof. reflexivity. Qed.

Lemma join_singleton (sep x : string) : PyStr.join sep [x] = x.
Proof. reflexivity. Qed.

Lemma join_cons (sep x y : string) (rest : list string) :
  PyStr.join sep (x :: y :: rest) = x +:+ sep +:+ PyStr.join sep (y :: rest).
Proof. reflexivity. Qed.

(** C9.  The instruction is the high-level preamble, the planning, reasoning,
    reflection, replanning and final-answer blocks and the tool-code block, in
    this order, with two line breaks between neighbours and nothing before,
    after or besides them; each of the six tags occurs in it. *)
Theorem C9_instruction_blocks
    (ReadonlyContext LlmRequest : Type)
    (readonly_context : ReadonlyContext) (llm_request : LlmRequest) (h : heap) :
  let line_break := Ascii.Ascii false true false true false false false false in
  let blank := String line_break (String line_break EmptyString) in
  let instruction :=
    high_level_preamble +:+ blank
      +:+ planning_preamble +:+ blank
      +:+ reasoning_preamble +:+ blank
      +:+ reflection_preamble +:+ blank
      +:+ replanning_preamble +:+ blank
      +:+ final_answer_preamble +:+ blank
      +:+ tool_code_without_python_libraries_preamble in
  build_planning_instruction readonly_context llm_request h = Some (instruction, h)
  /\ Forall (fun tag => PyStr.contains tag instruction = true)
       [PLANNING_TAG; REASONING_TAG; ACTION_TAG;
        REFLECTION_TAG; REPLANNING_TAG; FINAL_ANSWER_TAG].
Proof.
  intros line_break blank instruction. split.
  - unfold build_planning_instruction, ret, _build_reflection_planner_instruction.
    rewrite !join_cons, join_singleton. reflexivity.
  - repeat constructor; vm_compute; reflexivity.
Qed.

(** C4.  The method returns [None] exactly on the empty input; on any other
    input it returns a list, which may be empty. *)
Theorem C4_none_iff_empty
    (CallbackContext : Type) (callback_context : CallbackContext)
    (h : heap) (response_parts : list ref) :
  well_formed h response_parts ->
  exists (res : option (list ref)) (h' : heap),
    process_planning_response callback_context response_parts h = Some (res, h')
    /\ (res = None <-> response_parts = []).
Proof.
  intros Hwf.
  destruct (process_planning_response_total callback_context h response_parts Hwf)
    as (res & h' & Hrun & _ & Hnone & _).
  by exists res, h'.
Qed.

Lemma C4_none_iff_empty_witness :
  well_formed [Action ""; Action ""] [0; 1]%nat
  /\ exists (res : option (list ref)) (h' : heap),
       process_planning_response tt [0; 1]%nat [Action ""; Action ""] = Some (res, h')
       /\ (res = None <-> [0; 1]%nat = []).
Proof.
  assert (well_formed [Action ""; Action ""] [0; 1]%nat) as Hwf.
  { unfold well_formed. repeat constructor; simpl; lia. }
  split; [exact Hwf|].
  exact (C4_none_iff_empty unit tt [Action ""; Action ""] [0; 1]%nat Hwf).
Defined.

(** An input of function calls without a name only: an empty list, not
    [None]. *)
Example all_skipped_example :
  process_planning_response tt [0; 1]%nat [Action ""; Action ""]
  = Some (Some [], [Action ""; Action ""]).
Proof. reflexivity. Qed.

Example empty_input_example (h : heap) :
  process_planning_response tt [] h = Some (None, h).
Proof. reflexivity. Qed.

(** C5.  A function call without a name that follows the first kept function
    call, itself not at index 0, is appended by the [while] loop: it is part
    of the output. *)
Theorem C5_unnamed_call_survives_lookahead :
  exists (out : list ref) (h' : heap),
    process_planning_response tt [0; 1; 2]%nat [Text "plan"; Action "search"; Action ""]
      = Some (Some out, h')
    /\ 2%nat ∈ out
    /\ h' !! 2%nat = Some (Action "")
    /\ kept (Action "") = false.
Proof.
  exists [0; 1; 2]%nat, [Text "plan"; Action "search"; Action ""].
  split; [reflexivity|]. split; [|by split].
  apply elem_of_cons. right. apply elem_of_cons. right. apply elem_of_cons. by left.
Qed.

(** The [for] loop does drop such a call. *)
Example unnamed_call_dropped_by_scan_example :
  process_planning_response tt [0; 1]%nat [Action ""; Action "search"]
  = Some (Some [1%nat], [Action ""; Action "search"]).
Proof. reflexivity. Qed.

(** C10.  The method returns on every well-formed input.  Every object of the
    caller keeps its text and its function call, and is either left as it was
    or has its flag set to true, so a flag that was true stays true.  An input
    text part that holds the final-answer tag is left exactly as it was and is
    not in the output; any object of the caller found in the output is a
    function call or a text without that tag, everything else in the output
    is new. *)
Theorem C10_frame
    (CallbackContext : Type) (callback_context : CallbackContext)
    (h : heap) (response_parts : list ref) :
  well_formed h response_parts ->
  exists (res : option (list ref)) (h' : heap),
    process_planning_response callback_context response_parts h = Some (res, h')
    /\ (forall l p, h !! l = Some p ->
          exists p', h' !! l = Some p'
            /\ text p' = text p /\ function_call p' = function_call p
            /\ (p' = p \/ p' = with_thought true p)
            /\ (thought p = Some true -> thought p' = Some true))
    /\ (forall l p t, l ∈ response_parts -> h !! l = Some p ->
          function_call p = None -> text p = Some t ->
          PyStr.contains FINAL_ANSWER_TAG t = true ->
          h' !! l = Some p /\ forall out, res = Some out -> l ∉ out)
    /\ (forall out r, res = Some out -> r ∈ out ->
          (length h <= r)%nat
          \/ (r ∈ response_parts /\ exists q, h !! r = Some q
                /\ (function_call q = None -> forall t, text q = Some t ->
                      PyStr.contains FINAL_ANSWER_TAG t = false))).
Proof.
  intros Hwf.
  destruct (process_planning_response_total callback_context h response_parts Hwf)
    as (res & h' & Hrun & [_ Hev] & _ & Horigin).
  exists res, h'. split; [done|]. split; [|split].
  - intros l p Hl. destruct (Hev l p Hl) as [Hl'|[_ Hl']].
    + exists p. by repeat split; auto.
    + exists (mark p). split; [done|]. rewrite mark_text, mark_function_call.
      do 2 (split; [done|]).
      destruct (mark_cases p) as [->| ->]; [by split; auto|]. by split; auto.
  - intros l p t Hin Hl Hfc Ht Hc.
    assert (text_with_final_answer p = Some t) as Hf by by apply text_with_final_answer_Some.
    split.
    + destruct (Hev l p Hl) as [?|[_ Hl']]; [done|].
      by rewrite (mark_final _ _ Hf) in Hl'.
    + intros out Hres Hout.
      destruct (Horigin out Hres l Hout) as [(_ & q & Hq & _ & Hno)|[Hnew _]].
      * assert (q = p) as -> by congruence. rewrite (Hno Hfc) in Hf. done.
      * apply lookup_lt_Some in Hl. lia.
  - intros out r Hres Hout.
    destruct (Horigin out Hres r Hout) as [(Hin & q & Hq & _ & Hno)|[Hnew _]]; [|by left].
    right. split; [done|]. exists q. split; [done|].
    intros Hfc. by apply text_with_final_answer_None, Hno.
Qed.

Lemma C10_frame_witness :
  well_formed [Text "/*PLANNING*/ a"; Text "b /*FINAL_ANSWER*/ c"; Action "search"]
    [0; 1; 2]%nat
  /\ exists (res : option (list ref)) (h' : heap),
    process_planning_response tt [0; 1; 2]%nat
      [Text "/*PLANNING*/ a"; Text "b /*FINAL_ANSWER*/ c"; Action "search"]
      = Some (res, h')
    /\ (forall l p,
          [Text "/*PLANNING*/ a"; Text "b /*FINAL_ANSWER*/ c"; Action "search"] !! l
            = Some p ->
          exists p', h' !! l = Some p'
            /\ text p' = text p /\ function_call p' = function_call p
            /\ (p' = p \/ p' = with_thought true p)
            /\ (thought p = Some true -> thought p' = Some true))
    /\ (forall l p t, l ∈ [0; 1; 2]%nat ->
          [Text "/*PLANNING*/ a"; Text "b /*FINAL_ANSWER*/ c"; Action "search"] !! l
            = Some p ->
          function_call p = None -> text p = Some t ->
          PyStr.contains FINAL_ANSWER_TAG t = true ->
          h' !! l = Some p /\ forall out, res = Some out -> l ∉ out)
    /\ (forall out r, res = Some out -> r ∈ out ->
          (length [Text "/*PLANNING*/ a"; Text "b /*FINAL_ANSWER*/ c"; Action "search"]
             <= r)%nat
          \/ (r ∈ [0; 1; 2]%nat /\ exists q,
                [Text "/*PLANNING*/ a"; Text "b /*FINAL_ANSWER*/ c"; Action "search"] !! r
                  = Some q
                /\ (function_call q = None -> forall t, text q = Some t ->
                      PyStr.contains FINAL_ANSWER_TAG t = false))).
Proof.
  assert (well_formed
            [Text "/*PLANNING*/ a"; Text "b /*FINAL_ANSWER*/ c"; Action "search"]
            [0; 1; 2]%nat) as Hwf.
  { unfold well_formed. repeat constructor; simpl; lia. }
  split; [exact Hwf|].
  exact (C10_frame unit tt _ _ Hwf).
Defined.

Example frame_example :
  process_planning_response tt [0; 1; 2]%nat
    [Text "/*PLANNING*/ a"; Text "b /*FINAL_ANSWER*/ c"; Action "search"]
  = Some (Some [0; 3; 4; 2]%nat,
          [with_thought true (Text "/*PLANNING*/ a"); Text "b /*FINAL_ANSWER*/ c";
           Action "search";
           with_thought true (Text "b /*FINAL_ANSWER*/"); Text " c"]).
Proof. reflexivity. Qed.

(** ** Text-only input *)

Lemma image_of_text_image (h h' : heap) (r : ref) (group : list ref) :
  (exists p, h !! r = Some p /\ function_call p = None) ->
  image_of h h' r group -> text_image h h' r group.
Proof.
  intros (p0 & Hp0 & Hfc) (p & Hp & Hm & Hg).
  assert (p0 = p) as -> by congruence. exists p. split; [done|].
  rewrite Hfc in Hg. destruct (text_with_final_answer p) as [t|] eqn:Hf.
  - rewrite (mark_final _ _ Hf) in Hm. by destruct Hg.
  - split; [done|]. exists (mark p). split; [done|]. rewrite mark_text.
    split; [done|]. unfold mark. rewrite Hfc, Hf.
    destruct (starts_with_narrative_tag p); simpl.
    + split; auto.
    + split; [auto | by intros [?|?]].
Qed.

Lemma Forall2_image_of_text_image (h h' : heap) (parts : list ref)
    (groups : list (list ref)) :
  Forall (fun r => exists p, h !! r = Some p /\ function_call p = None) parts ->
  Forall2 (image_of h h') parts groups -> Forall2 (text_image h h') parts groups.
Proof.
  intros Hall Himg. induction Himg as [|r g rs gs Hrg _ IH]; [constructor|].
  inversion Hall; subst. constructor; [by apply image_of_text_image | by apply IH].
Qed.

(** C2, as the code has it.  On a non-empty input of text parts only, the
    output is the concatenation, in input order, of one group per part.  A
    part without the final-answer tag contributes itself (the same object,
    text unchanged), and its flag is true afterwards iff it was true before
    or the text starts with one of the five narrative tags.  A part with the
    final-answer tag is left as it was and contributes the new objects of the
    split: the head with the flag set and, when non-empty, the tail without
    it. *)
Theorem C2_text_only_groups
    (CallbackContext : Type) (callback_context : CallbackContext)
    (h : heap) (response_parts : list ref) :
  response_parts <> [] ->
  Forall (fun r => exists p, h !! r = Some p /\ function_call p = None) response_parts ->
  exists (out : list ref) (h' : heap) (groups : list (list ref)),
    process_planning_response callback_context response_parts h = Some (Some out, h')
    /\ out = concat groups
    /\ Forall2 (text_image h h') response_parts groups.
Proof.
  intros Hne Htext.
  assert (well_formed h response_parts) as Hwf.
  { eapply Forall_impl; [exact Htext|]. intros r (p & Hp & _). by eapply lookup_lt_Some. }
  destruct (process_planning_response_spec callback_context h response_parts Hwf Hne)
    as (m & groups & idx & h' & _ & Hrun & _ & Himg & Hidx).
  destruct Hidx as [(-> & -> & _)|(k & r & p & _ & _ & Hk & Hp & Hkept & _)].
  - exists (concat groups), h', groups. rewrite Hrun. simpl. rewrite app_nil_r.
    split; [done|]. split; [done|].
    rewrite firstn_all in Himg. by apply Forall2_image_of_text_image.
  - apply list_elem_of_lookup_2 in Hk.
    rewrite Forall_forall in Htext. destruct (Htext r Hk) as (q & Hq & Hfc).
    assert (q = p) as -> by congruence. unfold kept in Hkept. by rewrite Hfc in Hkept.
Qed.

Lemma C2_text_only_groups_witness :
  [0; 1; 2]%nat <> []
  /\ Forall (fun r => exists p,
               [Text "/*PLANNING*/ a"; Text "plain"; Text "b /*FINAL_ANSWER*/ c"] !! r = Some p
               /\ function_call p = None) [0; 1; 2]%nat
  /\ exists (out : list ref) (h' : heap) (groups : list (list ref)),
       process_planning_response tt [0; 1; 2]%nat
         [Text "/*PLANNING*/ a"; Text "plain"; Text "b /*FINAL_ANSWER*/ c"]
         = Some (Some out, h')
       /\ out = concat groups
       /\ Forall2 (text_image
                     [Text "/*PLANNING*/ a"; Text "plain"; Text "b /*FINAL_ANSWER*/ c"] h')
            [0; 1; 2]%nat groups.
Proof.
  assert ([0; 1; 2]%nat <> []) as Hne by discriminate.
  assert (Forall (fun r => exists p,
            [Text "/*PLANNING*/ a"; Text "plain"; Text "b /*FINAL_ANSWER*/ c"] !! r = Some p
            /\ function_call p = None) [0; 1; 2]%nat) as Htext.
  { repeat constructor; eexists; split; reflexivity. }
  split; [exact Hne|]. split; [exact Htext|].
  exact (C2_text_only_groups unit tt _ _ Hne Htext).
Defined.

(** The sentence of the specification, as worded, fails on a text that holds
    the final-answer tag: one input part becomes two output parts, neither
    with the text of the input, and the tail keeps an unset flag even when it
    starts with a narrative tag. *)
Lemma C2_counterexample :
  ~ preserved_one_to_one [Text "/*FINAL_ANSWER*//*PLANNING*/ x"] [0%nat]
  /\ ~ flags_follow_tags_in_output [Text "/*FINAL_ANSWER*//*PLANNING*/ x"] [0%nat].
Proof.
  assert (process_planning_response tt [0%nat] [Text "/*FINAL_ANSWER*//*PLANNING*/ x"]
          = Some (Some [1; 2]%nat,
                  [Text "/*FINAL_ANSWER*//*PLANNING*/ x";
                   with_thought true (Text "/*FINAL_ANSWER*/"); Text "/*PLANNING*/ x"]))
    as Hrun by reflexivity.
  split; intros H.
  - specialize (H _ _ Hrun).
    inversion H as [|? ? ? ? _ Hrest]; subst. inversion Hrest.
  - assert (2%nat ∈ [1; 2]%nat) as Hin.
    { apply elem_of_cons. right. apply elem_of_cons. by left. }
    destruct (H _ _ 2%nat (Text "/*PLANNING*/ x") Hrun Hin eq_refl) as [_ Hset].
    specialize (Hset eq_refl). discriminate.
Qed.

(** ** The guard of the [while] loop *)

Lemma first_kept_unique (h : heap) (parts : list ref) (k1 k2 : nat) (r1 r2 : ref)
    (p1 p2 : Part) :
  parts !! k1 = Some r1 -> h !! r1 = Some p1 -> kept p1 = true ->
  Forall (not_kept h) (take k1 parts) ->
  parts !! k2 = Some r2 -> h !! r2 = Some p2 -> kept p2 = true ->
  Forall (not_kept h) (take k2 parts) ->
  k1 = k2.
Proof.
  intros Hk1 Hr1 Hkept1 Hall1 Hk2 Hr2 Hkept2 Hall2.
  destruct (Nat.lt_trichotomy k1 k2) as [Hlt|[?|Hlt]]; [|done|].
  - rewrite Forall_forall in Hall2.
    assert (r1 ∈ take k2 parts) as Hin by (apply elem_of_take; eauto).
    specialize (Hall2 _ Hin _ Hr1). congruence.
  - rewrite Forall_forall in Hall1.
    assert (r2 ∈ take k1 parts) as Hin by (apply elem_of_take; eauto).
    specialize (Hall1 _ Hin _ Hr2). congruence.
Qed.

(** C3, as the code has it.  The [while] loop runs iff the first kept function
    call stands at an index greater than 0, whatever stands before it.  When it
    runs, the output is what the [for] loop preserved followed by the function
    calls that directly follow the kept one, up to the first part that is not a
    function call; when it does not run, the output is what the [for] loop
    preserved. *)
Theorem C3_lookahead_guard
    (CallbackContext : Type) (callback_context : CallbackContext)
    (h : heap) (response_parts : list ref) :
  well_formed h response_parts -> response_parts <> [] ->
  (lookahead_phase_runs response_parts h = true <->
   exists (k : nat) (r : ref) (p : Part),
     (0 < k)%nat /\ response_parts !! k = Some r /\ h !! r = Some p
     /\ kept p = true /\ Forall (not_kept h) (take k response_parts))
  /\ exists (preserved : list ref) (idx : Z) (h' : heap) (run rest : list ref),
       scan_loop 0 response_parts [] h = Some ((preserved, idx), h')
       /\ process_planning_response callback_context response_parts h
          = Some (Some (preserved ++
                        if lookahead_phase_runs response_parts h then run else []), h')
       /\ drop (Z.to_nat (idx + 1)) response_parts = run ++ rest
       /\ Forall (fun r => exists p, h !! r = Some p /\ is_action p = true) run
       /\ match rest with
          | [] => True
          | r :: _ => exists p, h !! r = Some p /\ is_action p = false
          end.
Proof.
  intros Hwf Hne.
  destruct (process_planning_response_spec callback_context h response_parts Hwf Hne)
    as (m & groups & idx & h' & Hscan & Hrun & _ & _ & Hidx).
  assert (lookahead_phase_runs response_parts h = (0 <? idx)) as Hguard.
  { unfold lookahead_phase_runs. by rewrite Hscan. }
  split.
  - rewrite Hguard. split.
    + intros Hpos%Z.ltb_lt.
      destruct Hidx as [(-> & _)|(k & r & p & _ & -> & Hk & Hp & Hkept & Hall)]; [lia|].
      exists k, r, p. split; [lia | done].
    + intros (k & r & p & Hpos & Hk & Hp & Hkept & Hall). apply Z.ltb_lt.
      destruct Hidx as [(_ & _ & Hnone)|(k' & r' & p' & _ & -> & Hk' & Hp' & Hkept' & Hall')].
      * rewrite Forall_forall in Hnone.
        specialize (Hnone r (list_elem_of_lookup_2 _ _ _ Hk) p Hp). congruence.
      * rewrite (first_kept_unique h response_parts k' k r' r p' p); try done. lia.
  - destruct (leading_actions_spec h (drop (Z.to_nat (idx + 1)) response_parts))
      as (rest & Hsplit & Hall & Hnext); [by apply well_formed_drop|].
    exists (concat groups), idx, h',
      (leading_actions h (drop (Z.to_nat (idx + 1)) response_parts)), rest.
    rewrite Hguard. by repeat split.
Qed.

Lemma C3_lookahead_guard_witness :
  well_formed [Action ""; Action "search"; Action "lookup"; Text "more"] [0; 1; 2; 3]%nat
  /\ [0; 1; 2; 3]%nat <> []
  /\ (lookahead_phase_runs [0; 1; 2; 3]%nat
        [Action ""; Action "search"; Action "lookup"; Text "more"] = true <->
      exists (k : nat) (r : ref) (p : Part),
        (0 < k)%nat /\ [0; 1; 2; 3]%nat !! k = Some r
        /\ [Action ""; Action "search"; Action "lookup"; Text "more"] !! r = Some p
        /\ kept p = true
        /\ Forall (not_kept [Action ""; Action "search"; Action "lookup"; Text "more"])
             (take k [0; 1; 2; 3]%nat))
  /\ exists (preserved : list ref) (idx : Z) (h' : heap) (run rest : list ref),
       scan_loop 0 [0; 1; 2; 3]%nat []
         [Action ""; Action "search"; Action "lookup"; Text "more"]
         = Some ((preserved, idx), h')
       /\ process_planning_response tt [0; 1; 2; 3]%nat
            [Action ""; Action "search"; Action "lookup"; Text "more"]
          = Some (Some (preserved ++
                        if lookahead_phase_runs [0; 1; 2; 3]%nat
                             [Action ""; Action "search"; Action "lookup"; Text "more"]
                        then run else []), h')
       /\ drop (Z.to_nat (idx + 1)) [0; 1; 2; 3]%nat = run ++ rest
       /\ Forall (fun r => exists p,
                    [Action ""; Action "search"; Action "lookup"; Text "more"] !! r = Some p
                    /\ is_action p = true) run
       /\ match rest with
          | [] => True
          | r :: _ => exists p,
              [Action ""; Action "search"; Action "lookup"; Text "more"] !! r = Some p
              /\ is_action p = false
          end.
Proof.
  assert (well_formed [Action ""; Action "search"; Action "lookup"; Text "more"]
            [0; 1; 2; 3]%nat) as Hwf.
  { unfold well_formed. repeat constructor; simpl; lia. }
  assert ([0; 1; 2; 3]%nat <> []) as Hne by discriminate.
  split; [exact Hwf|]. split; [exact Hne|].
  exact (C3_lookahead_guard unit tt _ _ Hwf Hne).
Defined.

(** The sentence of the specification, as worded, fails when only function
    calls without a name stand before the first kept one: the [while] loop
    runs and appends the third part, yet no part of the input is other than a
    function call. *)
Lemma C3_counterexample :
  process_planning_response tt [0; 1; 2]%nat
    [Action ""; Action "search"; Action "lookup"]
  = Some (Some [1; 2]%nat, [Action ""; Action "search"; Action "lookup"])
  /\ ~ lookahead_iff_text_before
         [Action ""; Action "search"; Action "lookup"] [0; 1; 2]%nat.
Proof.
  split; [reflexivity|]. intros [H _].
  destruct (H eq_refl) as (k & r & p & j & r' & q & _ & _ & _ & _ & _ & Hj & Hq & Hact).
  destruct j as [|[|[|j]]]; simpl in Hj; try discriminate;
    injection Hj as <-; simpl in Hq; injection Hq as <-; discriminate.
Qed.

Example spec_lookahead_example :
  process_planning_response tt [0; 1; 2; 3]%nat
    [Text "plan"; Action "search"; Action "lookup"; Text "more"]
  = Some (Some [0; 1; 2]%nat,
          [Text "plan"; Action "search"; Action "lookup"; Text "more"]).
Proof. reflexivity. Qed.

(** The kept function call at index 0: the [while] loop does not run and the
    function call after it is left out. *)
Example no_lookahead_at_index_0_example :
  process_planning_response tt [0; 1]%nat [Action "search"; Action "lookup"]
  = Some (Some [0%nat], [Action "search"; Action "lookup"]).
Proof. reflexivity. Qed.

(** ** In-place marking *)

(** C7, as the code has it.  A part of the output whose flag is true is
    either an object of the caller, marked in place (its cell holds the
    caller's part, with the flag set if the method set it), or the new head
    built for an input text that holds the final-answer tag, and then that
    input part is left as it was. *)
Theorem C7_marked_in_place_or_new_head
    (CallbackContext : Type) (callback_context : CallbackContext)
    (h : heap) (response_parts : list ref) :
  well_formed h response_parts ->
  exists (res : option (list ref)) (h' : heap),
    process_planning_response callback_context response_parts h = Some (res, h')
    /\ forall out r p', res = Some out -> r ∈ out ->
         h' !! r = Some p' -> thought p' = Some true ->
         (r ∈ response_parts
          /\ exists p, h !! r = Some p
               /\ (p' = p \/ (p' = with_thought true p
                              /\ function_call p = None
                              /\ starts_with_narrative_tag p = true)))
         \/ ((length h <= r)%nat
             /\ exists l p t, l ∈ response_parts /\ h !! l = Some p
                  /\ function_call p = None /\ text p = Some t
                  /\ PyStr.contains FINAL_ANSWER_TAG t = true
                  /\ p' = with_thought true
                            (Part_of_text (fst (_split_by_last_pattern t FINAL_ANSWER_TAG)))
                  /\ h' !! l = Some p).
Proof.
  intros Hwf.
  destruct (process_planning_response_total callback_context h response_parts Hwf)
    as (res & h' & Hrun & _ & _ & Horigin).
  exists res, h'. split; [done|]. intros out r p' Hres Hout Hr Hth.
  destruct (Horigin out Hres r Hout)
    as [(Hin & p & Hp & Hm & _)|(Hnew & l & p & t & c & Hl & Hp & Hfc & Hf & Hl' & Hc & Hrc)].
  - left. split; [done|]. exists p. split; [done|].
    assert (p' = mark p) as -> by congruence. unfold mark.
    destruct (function_call p), (text_with_final_answer p); auto.
    destruct (starts_with_narrative_tag p); auto.
  - right. split; [done|]. exists l, p, t.
    apply text_with_final_answer_Some in Hf as [Ht Hct]. do 5 (split; [done|]).
    split; [|done]. assert (p' = c) as -> by congruence.
    unfold split_cells in Hc.
    destruct (_split_by_last_pattern t FINAL_ANSWER_TAG) as [hd tl]. simpl.
    apply elem_of_cons in Hc as [->|Hc]; [done|].
    destruct (PyStr.truthy tl); [|by apply elem_of_nil in Hc].
    apply list_elem_of_singleton in Hc as ->. discriminate.
Qed.

Lemma C7_marked_in_place_or_new_head_witness :
  well_formed [Text "/*PLANNING*/ a"; Text "b /*FINAL_ANSWER*/ c"] [0; 1]%nat
  /\ exists (res : option (list ref)) (h' : heap),
    process_planning_response tt [0; 1]%nat
      [Text "/*PLANNING*/ a"; Text "b /*FINAL_ANSWER*/ c"] = Some (res, h')
    /\ forall out r p', res = Some out -> r ∈ out ->
         h' !! r = Some p' -> thought p' = Some true ->
         (r ∈ [0; 1]%nat
          /\ exists p, [Text "/*PLANNING*/ a"; Text "b /*FINAL_ANSWER*/ c"] !! r = Some p
               /\ (p' = p \/ (p' = with_thought true p
                              /\ function_call p = None
                              /\ starts_with_narrative_tag p = true)))
         \/ ((length [Text "/*PLANNING*/ a"; Text "b /*FINAL_ANSWER*/ c"] <= r)%nat
             /\ exists l p t, l ∈ [0; 1]%nat
                  /\ [Text "/*PLANNING*/ a"; Text "b /*FINAL_ANSWER*/ c"] !! l = Some p
                  /\ function_call p = None /\ text p = Some t
                  /\ PyStr.contains FINAL_ANSWER_TAG t = true
                  /\ p' = with_thought true
                            (Part_of_text (fst (_split_by_last_pattern t FINAL_ANSWER_TAG)))
                  /\ h' !! l = Some p).
Proof.
  assert (well_formed [Text "/*PLANNING*/ a"; Text "b /*FINAL_ANSWER*/ c"] [0; 1]%nat)
    as Hwf.
  { unfold well_formed. repeat constructor; simpl; lia. }
  split; [exact Hwf|].
  exact (C7_marked_in_place_or_new_head unit tt _ _ Hwf).
Defined.

(** The sentence of the specification, as worded, fails on a text with the
    final-answer tag: the head in the output carries the flag, no part of the
    caller's input does. *)
Lemma C7_counterexample :
  ~ thought_visible_on_input [Text "/*FINAL_ANSWER*/ 42"] [0%nat].
Proof.
  intros H.
  assert (process_planning_response tt [0%nat] [Text "/*FINAL_ANSWER*/ 42"]
          = Some (Some [1; 2]%nat,
                  [Text "/*FINAL_ANSWER*/ 42";
                   with_thought true (Text "/*FINAL_ANSWER*/"); Text " 42"]))
    as Hrun by reflexivity.
  destruct (H _ _ 1%nat (with_thought true (Text "/*FINAL_ANSWER*/")) Hrun)
    as (l & q & Hl & Hq & Hth); [apply elem_of_cons; by left | done | done |].
  apply list_elem_of_singleton in Hl as ->. simpl in Hq. injection Hq as <-.
  discriminate.
Qed.

(** * Further properties *)

(** ** [_split_by_last_pattern] on any text and separator *)

Lemma app_empty_r (s : string) : s +:+ "" = s.
Proof.
  induction s as [|c s IH]; [done|]. by rewrite app_cons, IH.
Qed.

Lemma take_drop_string (n : nat) (s : string) : PyStr.take n s +:+ PyStr.drop n s = s.
Proof.
  revert s. induction n as [|n IH]; intros [|c s]; simpl; try done.
  by rewrite app_cons, IH.
Qed.

Lemma occurs_at_shift (sep a text : string) (k : nat) :
  occurs_at sep text k -> occurs_at sep (a +:+ text) (String.length a + k).
Proof.
  intros (pre & post & -> & <-). exists (a +:+ pre), post.
  split; [by rewrite app_assoc' | by rewrite length_app'].
Qed.

Lemma split_halves_concat (text separator : string) :
  fst (_split_by_last_pattern text separator)
    +:+ snd (_split_by_last_pattern text separator) = text.
Proof.
  unfold _split_by_last_pattern.
  destruct (PyStr.rfind text separator =? -1); simpl.
  - apply app_empty_r.
  - apply take_drop_string.
Qed.

(** X1.  The two halves always make up the text again, whether or not the
    separator occurs in it. *)
Theorem split_by_last_pattern_concat (text separator : string) :
  fst (_split_by_last_pattern text separator)
    +:+ snd (_split_by_last_pattern text separator) = text.
Proof. apply split_halves_concat. Qed.

(** X2.  A text without the separator comes back whole, with an empty second
    half. *)
Theorem split_by_last_pattern_without_separator (text separator : string) :
  PyStr.contains separator text = false ->
  _split_by_last_pattern text separator = (text, "").
Proof. apply split_by_last_pattern_absent. Qed.

Lemma split_by_last_pattern_without_separator_witness :
  _split_by_last_pattern "/*PLANNING*/ step one" FINAL_ANSWER_TAG
  = ("/*PLANNING*/ step one", "").
Proof.
  apply (split_by_last_pattern_without_separator
           "/*PLANNING*/ step one" FINAL_ANSWER_TAG).
  reflexivity.
Defined.

(** X3.  For a non-empty separator, the second half never holds the
    separator: the cut is after its last occurrence. *)
Theorem split_by_last_pattern_tail_free (text separator : string) :
  PyStr.truthy separator = true ->
  PyStr.contains separator (snd (_split_by_last_pattern text separator)) = false.
Proof.
  intros Hsep. destruct (PyStr.contains separator text) eqn:Hin.
  - destruct (split_by_last_pattern_found _ _ Hin) as (pre & post & Heq & Hmax & ->).
    simpl. destruct (PyStr.contains separator post) eqn:Hpost; [|done].
    apply contains_iff in Hpost as [k Hk].
    apply (occurs_at_shift _ (pre +:+ separator)) in Hk.
    rewrite app_assoc', <- Heq in Hk. apply Hmax in Hk.
    rewrite length_app' in Hk. destruct separator; [done|]. simpl in Hk. lia.
  - rewrite (split_by_last_pattern_absent _ _ Hin). simpl.
    by destruct separator.
Qed.

Lemma split_by_last_pattern_tail_free_witness :
  PyStr.contains FINAL_ANSWER_TAG
    (snd (_split_by_last_pattern "a/*FINAL_ANSWER*/b/*FINAL_ANSWER*/c" FINAL_ANSWER_TAG))
  = false.
Proof.
  apply (split_by_last_pattern_tail_free
           "a/*FINAL_ANSWER*/b/*FINAL_ANSWER*/c" FINAL_ANSWER_TAG).
  reflexivity.
Defined.

(** ** [_mark_as_thought] *)

(** X4.  Marking touches one cell only and only its flag: the flag becomes
    true when the part has a non-empty text and stays as it was otherwise;
    every other cell, the text and the function call are as before, and
    marking once more changes nothing. *)
Theorem mark_as_thought_effect (h : heap) (r : ref) (p : Part) :
  h !! r = Some p ->
  exists (p' : Part) (h' : heap),
    _mark_as_thought r h = Some (tt, h')
    /\ h' !! r = Some p'
    /\ text p' = text p /\ function_call p' = function_call p
    /\ thought p' = (if truthy_opt (text p) then Some true else thought p)
    /\ length h' = length h
    /\ (forall l, l <> r -> h' !! l = h !! l)
    /\ _mark_as_thought r h' = Some (tt, h').
Proof.
  intros Hr. unfold _mark_as_thought, bind, deref. rewrite Hr.
  destruct (truthy_opt (text p)) eqn:Ht.
  - unfold set_thought. rewrite Hr.
    assert (<[r := with_thought true p]> h !! r = Some (with_thought true p)) as Hr'
      by (apply list_lookup_insert_eq; by eapply lookup_lt_Some).
    exists (with_thought true p), (<[r := with_thought true p]> h).
    split; [done|]. split; [done|]. do 3 (split; [done|]).
    split; [by rewrite length_insert|].
    split; [by intros l Hl; rewrite list_lookup_insert_ne|].
    rewrite Hr'. simpl. rewrite Ht, Hr'. by rewrite list_insert_insert_eq.
  - exists p, h. unfold ret. rewrite Hr, Ht. by repeat split.
Qed.

Lemma mark_as_thought_effect_witness :
  exists (p' : Part) (h' : heap),
    _mark_as_thought 1%nat [Text ""; Text "/*ACTION*/ call"] = Some (tt, h')
    /\ h' !! 1%nat = Some p'
    /\ text p' = text (Text "/*ACTION*/ call")
    /\ function_call p' = function_call (Text "/*ACTION*/ call")
    /\ thought p' = (if truthy_opt (text (Text "/*ACTION*/ call"))
                     then Some true else thought (Text "/*ACTION*/ call"))
    /\ length h' = length [Text ""; Text "/*ACTION*/ call"]
    /\ (forall l, l <> 1%nat -> h' !! l = [Text ""; Text "/*ACTION*/ call"] !! l)
    /\ _mark_as_thought 1%nat h' = Some (tt, h').
Proof.
  apply (mark_as_thought_effect [Text ""; Text "/*ACTION*/ call"] 1%nat
           (Text "/*ACTION*/ call")).
  reflexivity.
Defined.

(** ** [_handle_non_function_call_parts] *)

(** X5.  A part without text ([None] or the empty string) is passed on as it
    is: the part itself is appended and the store is not touched. *)
Theorem handle_part_without_text
    (h : heap) (r : ref) (p : Part) (preserved_parts : list ref) :
  h !! r = Some p -> truthy_opt (text p) = false ->
  _handle_non_function_call_parts r preserved_parts h
  = Some (preserved_parts ++ [r], h).
Proof.
  intros Hr Ht.
  assert (text_with_final_answer p = None) as Hf.
  { unfold text_with_final_answer. destruct (text p) as [s|]; [|done].
    simpl in Ht. by rewrite Ht. }
  rewrite (handle_no_tag h r p preserved_parts Hr Hf).
  assert (starts_with_narrative_tag p = false) as ->.
  { unfold starts_with_narrative_tag, or_empty. destruct (text p) as [s|]; [|done].
    simpl in Ht. by rewrite Ht. }
  by rewrite list_insert_id.
Qed.

Lemma handle_part_without_text_witness :
  _handle_non_function_call_parts 0%nat [5%nat]
    [{| text := None; function_call := None; thought := None |}]
  = Some ([5%nat] ++ [0%nat],
          [{| text := None; function_call := None; thought := None |}]).
Proof.
  apply (handle_part_without_text
           [{| text := None; function_call := None; thought := None |}] 0%nat
           {| text := None; function_call := None; thought := None |} [5%nat]);
    reflexivity.
Defined.

(** ** A kept function call at the very start *)

(** X6.  When the first part of the response is a function call with a name,
    the method returns that part alone and leaves the store as it was,
    whatever follows: the [while] loop is not entered. *)
Theorem process_kept_call_first
    (CallbackContext : Type) (callback_context : CallbackContext)
    (h : heap) (r : ref) (rest : list ref) (p : Part) :
  h !! r = Some p -> kept p = true ->
  process_planning_response callback_context (r :: rest) h = Some (Some [r], h).
Proof.
  intros Hr Hk. unfold process_planning_response, bind. cbn [scan_loop].
  unfold bind, deref. rewrite Hr. unfold kept in Hk.
  destruct (function_call p) as [fc|]; [|done]. by rewrite Hk.
Qed.

Lemma process_kept_call_first_witness :
  process_planning_response tt [0; 1; 2]%nat
    [Action "search"; Action "lookup"; Text "/*REASONING*/ next"]
  = Some (Some [0%nat], [Action "search"; Action "lookup"; Text "/*REASONING*/ next"]).
Proof.
  apply (process_kept_call_first unit tt
           [Action "search"; Action "lookup"; Text "/*REASONING*/ next"]
           0%nat [1; 2]%nat (Action "search")); reflexivity.
Defined.

(** ** Which cells the method modifies *)

(** The [for] loop, when it returns: the index it reports is [-1] or not
    below its start index, the store has not shrunk, and a cell differs from
    what it was only if it belongs to a text part visited before that index,
    without the final-answer tag and with a narrative prefix; it then holds
    the same part with the flag set. *)
Lemma scan_loop_touched (parts : list nat) :
  forall (i : Z) (preserved_parts : list nat) (h : heap)
         (out : list nat) (idx : Z) (h' : heap),
  scan_loop i parts preserved_parts h = Some ((out, idx), h') ->
  (idx = -1 \/ i <= idx)
  /\ (length h <= length h')%nat
  /\ forall l p, h !! l = Some p ->
       h' !! l = Some p
       \/ exists j : nat,
            parts !! j = Some l /\ (idx = -1 \/ i + Z.of_nat j < idx)
            /\ function_call p = None /\ text_with_final_answer p = None
            /\ starts_with_narrative_tag p = true
            /\ h' !! l = Some (with_thought true p).
Proof.
  induction parts as [|r rest IH]; intros i pres h out idx h' Hrun.
  { simpl in Hrun. injection Hrun as <- <- <-. split; [by left|]. split; [done|]. auto. }
  cbn [scan_loop] in Hrun. unfold bind at 1, deref in Hrun.
  destruct (h !! r) as [pr|] eqn:Hr; [|done].
  assert (Hlift : forall (h1 : heap) (pres1 : list nat),
    scan_loop (i + 1) rest pres1 h1 = Some ((out, idx), h') ->
    (length h <= length h1)%nat ->
    (forall l p, h !! l = Some p ->
       h1 !! l = Some p
       \/ (l = r /\ function_call p = None /\ text_with_final_answer p = None
           /\ starts_with_narrative_tag p = true
           /\ h1 !! l = Some (with_thought true p))) ->
    (idx = -1 \/ i <= idx)
    /\ (length h <= length h')%nat
    /\ forall l p, h !! l = Some p ->
         h' !! l = Some p
         \/ exists j : nat,
              (r :: rest) !! j = Some l /\ (idx = -1 \/ i + Z.of_nat j < idx)
              /\ function_call p = None /\ text_with_final_answer p = None
              /\ starts_with_narrative_tag p = true
              /\ h' !! l = Some (with_thought true p)).
  { intros h1 pres1 Hrest Hlen Hstep.
    destruct (IH _ _ _ _ _ _ Hrest) as (Hidx & Hlen' & Hcells).
    split; [lia|]. split; [lia|]. intros l p Hl.
    destruct (Hstep l p Hl) as [Hl1|(-> & Hfc & Hf & Hn & Hl1)].
    - destruct (Hcells l p Hl1) as [?|(j & Hj & Hlt & ?)]; [by left|].
      right. exists (S j). split; [done|]. split; [lia | done].
    - right. exists 0%nat. split; [done|]. split; [lia|]. do 3 (split; [done|]).
      destruct (Hcells r _ Hl1) as [?|(_ & _ & _ & _ & _ & _ & ?)]; done. }
  destruct (function_call pr) as [fc|] eqn:Hfc.
  - destruct (truthy_opt (name fc)); simpl in Hrun.
    + injection Hrun as <- <- <-. split; [right; lia|]. split; [done|]. auto.
    + eapply Hlift; [exact Hrun | done | auto].
  - unfold bind in Hrun.
    destruct (text_with_final_answer pr) as [t|] eqn:Hf.
    + destruct (handle_final h r pr t pres Hr Hf) as (pre & post & _ & _ & _ & Hh).
      rewrite Hh in Hrun.
      eapply Hlift; [exact Hrun | rewrite length_app; lia |].
      intros l p Hl. left. by apply lookup_app_l_Some.
    + rewrite (handle_no_tag h r pr pres Hr Hf) in Hrun.
      eapply Hlift; [exact Hrun | by rewrite length_insert |].
      intros l p Hl. destruct (starts_with_narrative_tag pr) eqn:Hn.
      * destruct (decide (l = r)) as [->|Hne].
        -- right. assert (p = pr) as -> by congruence.
           do 4 (split; [done|]).
           apply list_lookup_insert_eq. by eapply lookup_lt_Some.
        -- left. by rewrite list_lookup_insert_ne.
      * left. by rewrite list_insert_id.
Qed.

(** X7.  The method changes a cell of the caller only if that cell is a text
    part that stands before the first kept function call, holds no
    final-answer tag and starts with a narrative tag; the change is the flag
    set to true.  Parts at or after the first kept function call, function
    calls, and texts with the final-answer tag are never modified. *)
Theorem process_modifies_only_marked_prefix
    (CallbackContext : Type) (callback_context : CallbackContext)
    (h : heap) (response_parts : list ref) :
  well_formed h response_parts ->
  exists (res : option (list ref)) (h' : heap),
    process_planning_response callback_context response_parts h = Some (res, h')
    /\ forall l p, h !! l = Some p ->
         h' !! l = Some p
         \/ exists j : nat,
              response_parts !! j = Some l
              /\ Forall (not_kept h) (take (S j) response_parts)
              /\ function_call p = None /\ text_with_final_answer p = None
              /\ starts_with_narrative_tag p = true
              /\ h' !! l = Some (with_thought true p).
Proof.
  intros Hwf. destruct (decide (response_parts = [])) as [->|Hne].
  { exists None, h. split; [done | auto]. }
  destruct (process_planning_response_spec callback_context h response_parts Hwf Hne)
    as (m & groups & idx & h' & Hscan & Hrun & _ & _ & Hidx).
  eexists _, h'. split; [exact Hrun|]. intros l p Hl.
  destruct (scan_loop_touched _ _ _ _ _ _ _ Hscan) as (_ & _ & Hcells).
  destruct (Hcells l p Hl) as [?|(j & Hj & Hlt & Hrest)]; [by left|].
  right. exists j. split; [done|]. split; [|done].
  destruct Hidx as [(_ & _ & Hall)|(k & r & q & _ & -> & _ & _ & _ & Hall)].
  - by apply Forall_take.
  - assert (S j <= k)%nat as Hjk by lia.
    replace (S j) with (min (S j) k) by lia. rewrite <- take_take.
    by apply Forall_take.
Qed.

Lemma process_modifies_only_marked_prefix_witness :
  well_formed [Text "/*PLANNING*/ a"; Action "search"; Text "/*REASONING*/ b"]
    [0; 1; 2]%nat
  /\ exists (res : option (list ref)) (h' : heap),
    process_planning_response tt [0; 1; 2]%nat
      [Text "/*PLANNING*/ a"; Action "search"; Text "/*REASONING*/ b"] = Some (res, h')
    /\ forall l p,
         [Text "/*PLANNING*/ a"; Action "search"; Text "/*REASONING*/ b"] !! l = Some p ->
         h' !! l = Some p
         \/ exists j : nat,
              [0; 1; 2]%nat !! j = Some l
              /\ Forall (not_kept
                           [Text "/*PLANNING*/ a"; Action "search"; Text "/*REASONING*/ b"])
                   (take (S j) [0; 1; 2]%nat)
              /\ function_call p = None /\ text_with_final_answer p = None
              /\ starts_with_narrative_tag p = true
              /\ h' !! l = Some (with_thought true p).
Proof.
  assert (well_formed [Text "/*PLANNING*/ a"; Action "search"; Text "/*REASONING*/ b"]
            [0; 1; 2]%nat) as Hwf.
  { unfold well_formed. repeat constructor; simpl; lia. }
  split; [exact Hwf|].
  exact (process_modifies_only_marked_prefix unit tt _ _ Hwf).
Defined.

(** A narrative text after the kept function call keeps its unset flag. *)
Example text_after_call_untouched_example :
  process_planning_response tt [0; 1; 2]%nat
    [Text "/*PLANNING*/ a"; Action "search"; Text "/*REASONING*/ b"]
  = Some (Some [0; 1]%nat,
          [with_thought true (Text "/*PLANNING*/ a"); Action "search";
           Text "/*REASONING*/ b"]).
Proof. reflexivity. Qed.

(** X8.  Conversely, every text part that stands before the first kept
    function call, holds no final-answer tag and starts with a narrative tag
    has its flag set when the method returns. *)
Theorem process_marks_narrative_prefix
    (CallbackContext : Type) (callback_context : CallbackContext)
    (h : heap) (response_parts : list ref) (j : nat) (l : ref) (p : Part) :
  well_formed h response_parts ->
  response_parts !! j = Some l ->
  Forall (not_kept h) (take (S j) response_parts) ->
  h !! l = Some p -> function_call p = None ->
  text_with_final_answer p = None -> starts_with_narrative_tag p = true ->
  exists (out : list ref) (h' : heap),
    process_planning_response callback_context response_parts h = Some (Some out, h')
    /\ l ∈ out
    /\ h' !! l = Some (with_thought true p).
Proof.
  intros Hwf Hj Hall Hl Hfc Hf Hn.
  assert (response_parts <> []) as Hne by (intros ->; done).
  destruct (process_planning_response_spec callback_context h response_parts Hwf Hne)
    as (m & groups & idx & h' & _ & Hrun & _ & Himg & Hidx).
  assert (j < m)%nat as Hjm.
  { destruct Hidx as [(_ & -> & _)|(k & r & q & -> & _ & Hk & Hq & Hkept & _)].
    - by eapply lookup_lt_Some.
    - destruct (decide (j < S k)%nat) as [?|Hge]; [done|].
      rewrite Forall_forall in Hall.
      assert (r ∈ take (S j) response_parts) as Hin
        by (apply elem_of_take; exists k; split; [done | lia]).
      specialize (Hall r Hin q Hq). congruence. }
  assert (take m response_parts !! j = Some l) as Hj' by by rewrite lookup_take_lt.
  destruct (Forall2_lookup_l _ _ _ _ _ Himg Hj') as (g & Hg & (p' & Hp' & Hm & Himage)).
  assert (p' = p) as -> by congruence.
  rewrite Hfc, Hf in Himage. subst g.
  eexists _, h'. split; [exact Hrun|]. split.
  - apply elem_of_app. left. clear -Hg.
    revert j Hg. induction groups as [|g gs IH]; intros [|j] Hg; simpl in *; try done.
    + injection Hg as ->. apply elem_of_cons. by left.
    + apply elem_of_app. right. by eapply IH.
  - unfold mark in Hm. by rewrite Hfc, Hf, Hn in Hm.
Qed.

Lemma process_marks_narrative_prefix_witness :
  exists (out : list ref) (h' : heap),
    process_planning_response tt [0; 1; 2]%nat
      [Action ""; Text "/*REPLANNING*/ retry"; Action "search"] = Some (Some out, h')
    /\ 1%nat ∈ out
    /\ h' !! 1%nat = Some (with_thought true (Text "/*REPLANNING*/ retry")).
Proof.
  apply (process_marks_narrative_prefix unit tt
           [Action ""; Text "/*REPLANNING*/ retry"; Action "search"]
           [0; 1; 2]%nat 1%nat 1%nat (Text "/*REPLANNING*/ retry")).
  - unfold well_formed. repeat constructor; simpl; lia.
  - reflexivity.
  - repeat constructor; intros q [= <-]; reflexivity.
  - reflexivity.
  - reflexivity.
  - reflexivity.
  - reflexivity.
Defined.

(** ** The shape of the output *)

Lemma split_cells_cons (t : string) :
  exists c cs, split_cells t = c :: cs
    /\ function_call c = None /\ Forall (fun c' => function_call c' = None) cs
    /\ (length cs <= 1)%nat.
Proof.
  unfold split_cells. destruct (_split_by_last_pattern t FINAL_ANSWER_TAG) as [hd tl].
  eexists _, _. split; [done|]. split; [done|].
  destruct (PyStr.truthy tl); split; repeat constructor.
Qed.

Lemma image_of_nil (h h' : heap) (r : nat) (g : list nat) :
  image_of h h' r g ->
  g = [] <-> exists p, h !! r = Some p /\ unnamed_call p = true.
Proof.
  intros (p & Hp & _ & Hg). unfold unnamed_call. split.
  - intros ->. exists p. split; [done|].
    destruct (function_call p) as [fc|].
    + by destruct (truthy_opt (name fc)).
    + destruct (text_with_final_answer p) as [t|]; [|done].
      destruct Hg as [_ Hcells].
      destruct (split_cells_cons t) as (c & cs & Heq & _). rewrite Heq in Hcells.
      inversion Hcells.
  - intros (q & Hq & Hu). assert (q = p) as -> by congruence.
    destruct (function_call p) as [fc|]; [|done].
    by destruct (truthy_opt (name fc)).
Qed.

Lemma concat_nil_Forall {A} (groups : list (list A)) :
  concat groups = [] <-> Forall (fun g => g = []) groups.
Proof.
  induction groups as [|g gs IH]; simpl.
  - split; [constructor | done].
  - split.
    + intros [-> Hgs]%app_eq_nil. constructor; [done | by apply IH].
    + intros Hall. inversion Hall; subst. simpl. by apply IH.
Qed.

Lemma elem_of_concat_lookup {A} (groups : list (list A)) (k : nat) (g : list A) (x : A) :
  groups !! k = Some g -> x ∈ g -> x ∈ concat groups.
Proof.
  revert k. induction groups as [|g0 gs IH]; intros [|k] Hk Hx; simpl in *; try done.
  - injection Hk as ->. apply elem_of_app. by left.
  - apply elem_of_app. right. by eapply IH.
Qed.

(** X9.  On a non-empty input the returned list is empty exactly when every
    part is a function call without a name. *)
Theorem process_empty_output_iff
    (CallbackContext : Type) (callback_context : CallbackContext)
    (h : heap) (response_parts : list ref) :
  well_formed h response_parts -> response_parts <> [] ->
  exists (out : list ref) (h' : heap),
    process_planning_response callback_context response_parts h = Some (Some out, h')
    /\ (out = [] <->
        Forall (fun r => exists p, h !! r = Some p /\ unnamed_call p = true)
               response_parts).
Proof.
  intros Hwf Hne.
  destruct (process_planning_response_spec callback_context h response_parts Hwf Hne)
    as (m & groups & idx & h' & _ & Hrun & _ & Himg & Hidx).
  eexists _, h'. split; [exact Hrun|].
  destruct Hidx as [(-> & -> & _)|(k & r & p & -> & -> & Hk & Hp & Hkept & _)].
  - simpl. rewrite app_nil_r, firstn_all in *. rewrite concat_nil_Forall.
    clear -Himg. induction Himg as [|r g rs gs Hrg _ IH].
    + split; constructor.
    + split; intros Hall; inversion Hall; subst; constructor;
        try (by apply IH); by eapply image_of_nil.
  - assert (take (S k) response_parts !! k = Some r) as Hk'
      by (rewrite lookup_take_lt; [done | lia]).
    destruct (Forall2_lookup_l _ _ _ _ _ Himg Hk') as (g & Hg & (q & Hq & _ & Himage)).
    assert (q = p) as -> by congruence. unfold kept in Hkept.
    destruct (function_call p) as [fc|] eqn:Hfc; [|done]. rewrite Hkept in Himage.
    subst g. split.
    + intros Hnil.
      assert (r ∈ concat groups ++
                (if 0 <? Z.of_nat k
                 then leading_actions h (drop (Z.to_nat (Z.of_nat k + 1)) response_parts)
                 else [])) as Hin.
      { apply elem_of_app. left. eapply elem_of_concat_lookup; [done|].
        apply elem_of_cons. by left. }
      rewrite Hnil in Hin. by apply elem_of_nil in Hin.
    + intros Hall. rewrite Forall_forall in Hall.
      destruct (Hall r (list_elem_of_lookup_2 _ _ _ Hk)) as (q & Hq' & Hu).
      assert (q = p) as -> by congruence. unfold unnamed_call in Hu.
      rewrite Hfc, Hkept in Hu. done.
Qed.

Lemma process_empty_output_iff_witness :
  well_formed [Action ""; Action ""] [0; 1; 0]%nat
  /\ [0; 1; 0]%nat <> []
  /\ exists (out : list ref) (h' : heap),
       process_planning_response tt [0; 1; 0]%nat [Action ""; Action ""]
         = Some (Some out, h')
       /\ (out = [] <->
           Forall (fun r => exists p, [Action ""; Action ""] !! r = Some p
                                      /\ unnamed_call p = true)
                  [0; 1; 0]%nat).
Proof.
  assert (well_formed [Action ""; Action ""] [0; 1; 0]%nat) as Hwf.
  { unfold well_formed. repeat constructor; simpl; lia. }
  assert ([0; 1; 0]%nat <> []) as Hne by discriminate.
  split; [exact Hwf|]. split; [exact Hne|].
  exact (process_empty_output_iff unit tt _ _ Hwf Hne).
Defined.

Lemma image_of_not_kept_texts (h h' : heap) (r : nat) (g : list nat) :
  image_of h h' r g -> not_kept h r ->
  Forall (fun r' => exists q, h' !! r' = Some q /\ function_call q = None) g.
Proof.
  intros (p & Hp & Hm & Hg) Hnk. specialize (Hnk p Hp). unfold kept in Hnk.
  destruct (function_call p) as [fc|] eqn:Hfc.
  - rewrite Hnk in Hg. subst g. constructor.
  - destruct (text_with_final_answer p) as [t|].
    + destruct Hg as [_ Hcells].
      destruct (split_cells_cons t) as (c & cs & Heq & Hc & Hcs & _).
      rewrite Heq in Hcells. clear Heq.
      assert (Forall (fun c' => function_call c' = None) (c :: cs)) as Hall
        by by constructor.
      clear Hc Hcs. revert Hall.
      induction Hcells as [|r' c' rs cs' Hrc _ IH]; intros Hall; [constructor|].
      inversion Hall; subst. constructor; [by exists c' | by apply IH].
    + subst g. constructor; [|constructor]. exists (mark p).
      by rewrite mark_function_call.
Qed.

Lemma Forall2_image_of_not_kept_texts (h h' : heap) (parts : list nat)
    (groups : list (list nat)) :
  Forall2 (image_of h h') parts groups -> Forall (not_kept h) parts ->
  Forall (fun r' => exists q, h' !! r' = Some q /\ function_call q = None)
         (concat groups).
Proof.
  induction 1 as [|r g rs gs Hrg _ IH]; intros Hall; simpl; [constructor|].
  inversion Hall; subst. apply Forall_app. split.
  - by eapply image_of_not_kept_texts.
  - by apply IH.
Qed.

(** X10.  The output is a sequence of parts that are not function calls
    followed by a sequence of function calls; no text ever follows a function
    call.  The first function call of the output, if there is one, has a
    name. *)
Theorem process_output_texts_then_calls
    (CallbackContext : Type) (callback_context : CallbackContext)
    (h : heap) (response_parts : list ref) :
  well_formed h response_parts -> response_parts <> [] ->
  exists (out : list ref) (h' : heap) (texts calls : list ref),
    process_planning_response callback_context response_parts h = Some (Some out, h')
    /\ out = texts ++ calls
    /\ Forall (fun r => exists q, h' !! r = Some q /\ function_call q = None) texts
    /\ Forall (fun r => exists q, h' !! r = Some q /\ is_action q = true) calls
    /\ match calls with
       | [] => True
       | r :: _ => exists q, h' !! r = Some q /\ kept q = true
       end.
Proof.
  intros Hwf Hne.
  destruct (process_planning_response_spec callback_context h response_parts Hwf Hne)
    as (m & groups & idx & h' & _ & Hrun & Hev & Himg & Hidx).
  destruct Hidx as [(-> & -> & Hall)|(k & r & p & -> & -> & Hk & Hp & Hkept & Hall)].
  - exists (concat groups), h', (concat groups), [].
    simpl in Hrun. rewrite !app_nil_r in *. rewrite firstn_all in Himg.
    split; [done|]. split; [done|].
    split; [by eapply Forall2_image_of_not_kept_texts|]. by split.
  - rewrite (take_S_r _ _ _ Hk) in Himg.
    apply Forall2_app_inv_l in Himg as (gs & gr & Hgs & Hgr & ->).
    inversion Hgr as [|? g ? ? (q & Hq & Hm & Himage) Hnil]; subst.
    inversion Hnil; subst. assert (q = p) as -> by congruence.
    assert (is_action p = true) as Hact.
    { unfold kept in Hkept. unfold is_action. by destruct (function_call p). }
    unfold kept in Hkept. destruct (function_call p) as [fc|] eqn:Hfc; [|done].
    rewrite Hkept in Himage. subst g.
    rewrite (mark_action _ Hact) in Hm.
    set (run := if 0 <? Z.of_nat k
                then leading_actions h (drop (Z.to_nat (Z.of_nat k + 1)) response_parts)
                else []) in *.
    exists (concat (gs ++ [[r]]) ++ run), h', (concat gs), (r :: run).
    split; [done|].
    split; [rewrite concat_app; simpl; by rewrite <- !(assoc_L (++))|].
    split; [by eapply Forall2_image_of_not_kept_texts|].
    split; [|exists p; split; [done | unfold kept; by rewrite Hfc]].
    constructor; [by exists p|].
    apply Forall_forall. intros r' Hr'. subst run.
    destruct (0 <? Z.of_nat k); [|by apply elem_of_nil in Hr'].
    apply elem_of_leading_actions in Hr' as [_ (q & Hq' & Ha)].
    exists q. split; [|done]. destruct Hev as [_ Hev].
    destruct (Hev _ _ Hq') as [?|[_ ?]]; [done|]. by rewrite <- (mark_action q Ha).
Qed.

Lemma process_output_texts_then_calls_witness :
  well_formed [Text "plan"; Action "search"; Action "lookup"; Text "more"]
    [0; 1; 2; 3]%nat
  /\ [0; 1; 2; 3]%nat <> []
  /\ exists (out : list ref) (h' : heap) (texts calls : list ref),
       process_planning_response tt [0; 1; 2; 3]%nat
         [Text "plan"; Action "search"; Action "lookup"; Text "more"]
         = Some (Some out, h')
       /\ out = texts ++ calls
       /\ Forall (fun r => exists q, h' !! r = Some q /\ function_call q = None) texts
       /\ Forall (fun r => exists q, h' !! r = Some q /\ is_action q = true) calls
       /\ match calls with
          | [] => True
          | r :: _ => exists q, h' !! r = Some q /\ kept q = true
          end.
Proof.
  assert (well_formed [Text "plan"; Action "search"; Action "lookup"; Text "more"]
            [0; 1; 2; 3]%nat) as Hwf.
  { unfold well_formed. repeat constructor; simpl; lia. }
  assert ([0; 1; 2; 3]%nat <> []) as Hne by discriminate.
  split; [exact Hwf|]. split; [exact Hne|].
  exact (process_output_texts_then_calls unit tt _ _ Hwf Hne).
Defined.

(** ** Text-only input: nothing is lost *)

Lemma or_empty_Some (s : string) : or_empty (Some s) = s.
Proof. by destruct s. Qed.

Lemma joined_text_app (h : heap) (a b : list nat) :
  joined_text h (a ++ b) = joined_text h a +:+ joined_text h b.
Proof.
  induction a as [|r a IH]; simpl; [done|]. by rewrite IH, app_assoc'.
Qed.

Lemma text_image_joined (h h' : heap) (r : nat) (g : list nat) :
  text_image h h' r g -> joined_text h' g = part_text h r.
Proof.
  intros (p & Hp & Himage). unfold part_text. rewrite Hp.
  destruct (text_with_final_answer p) as [t|] eqn:Hf.
  - destruct Himage as (_ & _ & Hcells).
    apply text_with_final_answer_Some in Hf as [-> _]. rewrite or_empty_Some.
    rewrite <- (split_halves_concat t FINAL_ANSWER_TAG) at 1.
    unfold split_cells in Hcells.
    destruct (_split_by_last_pattern t FINAL_ANSWER_TAG) as [hd tl]. simpl.
    destruct (PyStr.truthy tl) eqn:Htl.
    + inversion Hcells as [|a c rs cs Ha Hrest]; subst.
      inversion Hrest as [|b c' rs' cs' Hb Hnil]; subst. inversion Hnil; subst.
      simpl. unfold part_text. rewrite Ha, Hb. simpl text.
      by rewrite !or_empty_Some, app_empty_r.
    + inversion Hcells as [|a c rs cs Ha Hnil]; subst. inversion Hnil; subst.
      simpl. unfold part_text. rewrite Ha. simpl text.
      rewrite or_empty_Some. by destruct tl.
  - destruct Himage as (-> & p' & Hp' & Ht & _). simpl. unfold part_text.
    by rewrite Hp', Ht, app_empty_r.
Qed.

Lemma text_image_length (h h' : heap) (r : nat) (g : list nat) :
  text_image h h' r g -> (1 <= length g <= 2)%nat.
Proof.
  intros (p & Hp & Himage).
  destruct (text_with_final_answer p) as [t|].
  - destruct Himage as (_ & _ & Hcells). apply Forall2_length in Hcells.
    destruct (split_cells_cons t) as (c & cs & Heq & _ & _ & Hlen).
    rewrite Heq in Hcells. simpl in Hcells. lia.
  - destruct Himage as (-> & _). simpl. lia.
Qed.

Lemma process_text_only_groups
    {CallbackContext : Type} (callback_context : CallbackContext)
    (h : heap) (response_parts : list nat) :
  response_parts <> [] ->
  Forall (fun r => exists p, h !! r = Some p /\ function_call p = None) response_parts ->
  exists (h' : heap) (groups : list (list nat)),
    process_planning_response callback_context response_parts h
      = Some (Some (concat groups), h')
    /\ Forall2 (text_image h h') response_parts groups.
Proof.
  intros Hne Htext.
  assert (well_formed h response_parts) as Hwf.
  { eapply Forall_impl; [exact Htext|]. intros r (p & Hp & _). by eapply lookup_lt_Some. }
  destruct (process_planning_response_spec callback_context h response_parts Hwf Hne)
    as (m & groups & idx & h' & _ & Hrun & _ & Himg & Hidx).
  destruct Hidx as [(-> & -> & _)|(k & r & p & _ & _ & Hk & Hp & Hkept & _)].
  - exists h', groups. rewrite Hrun. simpl. rewrite app_nil_r.
    split; [done|]. rewrite firstn_all in Himg. by apply Forall2_image_of_text_image.
  - apply list_elem_of_lookup_2 in Hk.
    rewrite Forall_forall in Htext. destruct (Htext r Hk) as (q & Hq & Hfc).
    assert (q = p) as -> by congruence. unfold kept in Hkept. by rewrite Hfc in Hkept.
Qed.

(** X11.  On a non-empty input of text parts only, the texts of the output,
    read one after the other, are the texts of the input read one after the
    other: splitting at the final-answer tag loses and adds no character. *)
Theorem process_text_only_conserves_text
    (CallbackContext : Type) (callback_context : CallbackContext)
    (h : heap) (response_parts : list ref) :
  response_parts <> [] ->
  Forall (fun r => exists p, h !! r = Some p /\ function_call p = None) response_parts ->
  exists (out : list ref) (h' : heap),
    process_planning_response callback_context response_parts h = Some (Some out, h')
    /\ joined_text h' out = joined_text h response_parts.
Proof.
  intros Hne Htext.
  destruct (process_text_only_groups callback_context h response_parts Hne Htext)
    as (h' & groups & Hrun & Himg).
  exists (concat groups), h'. split; [done|]. clear -Himg.
  induction Himg as [|r g rs gs Hrg _ IH]; simpl; [done|].
  by rewrite joined_text_app, IH, (text_image_joined _ _ _ _ Hrg).
Qed.

Lemma process_text_only_conserves_text_witness :
  [0; 1; 0]%nat <> []
  /\ Forall (fun r => exists p,
               [Text "/*PLANNING*/ a/*FINAL_ANSWER*/"; Text "b /*FINAL_ANSWER*/ c"] !! r
                 = Some p
               /\ function_call p = None) [0; 1; 0]%nat
  /\ exists (out : list ref) (h' : heap),
       process_planning_response tt [0; 1; 0]%nat
         [Text "/*PLANNING*/ a/*FINAL_ANSWER*/"; Text "b /*FINAL_ANSWER*/ c"]
         = Some (Some out, h')
       /\ joined_text h' out
          = joined_text
              [Text "/*PLANNING*/ a/*FINAL_ANSWER*/"; Text "b /*FINAL_ANSWER*/ c"]
              [0; 1; 0]%nat.
Proof.
  assert ([0; 1; 0]%nat <> []) as Hne by discriminate.
  assert (Forall (fun r => exists p,
            [Text "/*PLANNING*/ a/*FINAL_ANSWER*/"; Text "b /*FINAL_ANSWER*/ c"] !! r
              = Some p
            /\ function_call p = None) [0; 1; 0]%nat) as Htext.
  { repeat constructor; eexists; split; reflexivity. }
  split; [exact Hne|]. split; [exact Htext|].
  exact (process_text_only_conserves_text unit tt _ _ Hne Htext).
Defined.

(** X12.  On a non-empty input of text parts only, the output has at least as
    many parts as the input and at most twice as many: no text part is
    dropped, and each yields one part or two. *)
Theorem process_text_only_length
    (CallbackContext : Type) (callback_context : CallbackContext)
    (h : heap) (response_parts : list ref) :
  response_parts <> [] ->
  Forall (fun r => exists p, h !! r = Some p /\ function_call p = None) response_parts ->
  exists (out : list ref) (h' : heap),
    process_planning_response callback_context response_parts h = Some (Some out, h')
    /\ (length response_parts <= length out <= 2 * length response_parts)%nat.
Proof.
  intros Hne Htext.
  destruct (process_text_only_groups callback_context h response_parts Hne Htext)
    as (h' & groups & Hrun & Himg).
  exists (concat groups), h'. split; [done|]. clear -Himg.
  induction Himg as [|r g rs gs Hrg _ IH]; simpl; [lia|].
  rewrite length_app. pose proof (text_image_length _ _ _ _ Hrg). lia.
Qed.

Lemma process_text_only_length_witness :
  [0; 1]%nat <> []
  /\ Forall (fun r => exists p,
               [Text "plain"; Text "b /*FINAL_ANSWER*/ c"] !! r = Some p
               /\ function_call p = None) [0; 1]%nat
  /\ exists (out : list ref) (h' : heap),
       process_planning_response tt [0; 1]%nat
         [Text "plain"; Text "b /*FINAL_ANSWER*/ c"] = Some (Some out, h')
       /\ (length [0; 1]%nat <= length out <= 2 * length [0; 1]%nat)%nat.
Proof.
  assert ([0; 1]%nat <> []) as Hne by discriminate.
  assert (Forall (fun r => exists p,
            [Text "plain"; Text "b /*FINAL_ANSWER*/ c"] !! r = Some p
            /\ function_call p = None) [0; 1]%nat) as Htext.
  { repeat constructor; eexists; split; reflexivity. }
  split; [exact Hne|]. split; [exact Htext|].
  exact (process_text_only_length unit tt _ _ Hne Htext).
Defined.

(** ** Order of the caller's objects in the output *)

Lemma filter_all_false {A} (P : A -> Prop) `{!forall x, Decision (P x)} (l : list A) :
  Forall (fun x => ~ P x) l -> filter P l = [].
Proof.
  induction 1 as [|x l Hx _ IH]; [done|]. by rewrite filter_cons_False.
Qed.

Lemma filter_all_true {A} (P : A -> Prop) `{!forall x, Decision (P x)} (l : list A) :
  Forall P l -> filter P l = l.
Proof.
  induction 1 as [|x l Hx _ IH]; [done|]. rewrite filter_cons_True by done.
  by rewrite IH.
Qed.

Lemma image_of_old_sublist (h h' : heap) (r : nat) (g : list nat) :
  image_of h h' r g ->
  filter (fun x => (x < length h)%nat) g `sublist_of` [r].
Proof.
  intros (p & Hp & _ & Hg).
  assert (filter (fun x => (x < length h)%nat) [r] = [r]) as Hr.
  { apply filter_all_true. constructor; [by eapply lookup_lt_Some | constructor]. }
  destruct (function_call p) as [fc|].
  - destruct (truthy_opt (name fc)); subst g; [by rewrite Hr | apply sublist_nil_l].
  - destruct (text_with_final_answer p) as [t|].
    + destruct Hg as [Hnew _]. rewrite filter_all_false; [apply sublist_nil_l|].
      eapply Forall_impl; [exact Hnew|]. simpl. lia.
    + subst g. by rewrite Hr.
Qed.

Lemma Forall2_image_of_old_sublist (h h' : heap) (parts : list nat)
    (groups : list (list nat)) :
  Forall2 (image_of h h') parts groups ->
  filter (fun x => (x < length h)%nat) (concat groups) `sublist_of` parts.
Proof.
  induction 1 as [|r g rs gs Hrg _ IH]; simpl; [done|].
  rewrite filter_app. change (r :: rs) with ([r] ++ rs).
  apply sublist_app; [by eapply image_of_old_sublist | done].
Qed.

Lemma leading_actions_sublist (h : heap) (parts : list nat) :
  leading_actions h parts `sublist_of` parts.
Proof.
  induction parts as [|r rest IH]; simpl; [done|].
  destruct (h !! r) as [p|]; [|apply sublist_nil_l].
  destruct (is_action p); [by apply sublist_skip | apply sublist_nil_l].
Qed.

Lemma process_old_refs_sublist
    {CallbackContext : Type} (callback_context : CallbackContext)
    (h : heap) (response_parts : list nat) :
  well_formed h response_parts -> response_parts <> [] ->
  exists (out : list nat) (h' : heap),
    process_planning_response callback_context response_parts h = Some (Some out, h')
    /\ filter (fun r => (r < length h)%nat) out `sublist_of` response_parts.
Proof.
  intros Hwf Hne.
  destruct (process_planning_response_spec callback_context h response_parts Hwf Hne)
    as (m & groups & idx & h' & _ & Hrun & _ & Himg & Hidx).
  eexists _, h'. split; [exact Hrun|].
  rewrite filter_app. rewrite <- (take_drop m response_parts) at 2.
  apply sublist_app; [by eapply Forall2_image_of_old_sublist|].
  etrans; [apply sublist_filter|].
  destruct (0 <? idx) eqn:Hpos; [|apply sublist_nil_l].
  destruct Hidx as [(-> & _)|(k & r & p & -> & -> & _)]; [done|].
  replace (Z.to_nat (Z.of_nat k + 1)) with (S k) by lia.
  apply leading_actions_sublist.
Qed.

(** X13.  The objects of the caller that appear in the output appear in the
    order of the input, each at most as often as in the input: the method
    never reorders or repeats the parts it was given. *)
Theorem process_keeps_input_order
    (CallbackContext : Type) (callback_context : CallbackContext)
    (h : heap) (response_parts : list ref) :
  well_formed h response_parts -> response_parts <> [] ->
  exists (out : list ref) (h' : heap),
    process_planning_response callback_context response_parts h = Some (Some out, h')
    /\ filter (fun r => (r < length h)%nat) out `sublist_of` response_parts.
Proof. apply process_old_refs_sublist. Qed.

Lemma process_keeps_input_order_witness :
  well_formed [Text "/*PLANNING*/ a"; Text "b /*FINAL_ANSWER*/ c"; Action "search"]
    [0; 1; 2]%nat
  /\ [0; 1; 2]%nat <> []
  /\ exists (out : list ref) (h' : heap),
       process_planning_response tt [0; 1; 2]%nat
         [Text "/*PLANNING*/ a"; Text "b /*FINAL_ANSWER*/ c"; Action "search"]
         = Some (Some out, h')
       /\ filter (fun r =>
                    (r < length [Text "/*PLANNING*/ a"; Text "b /*FINAL_ANSWER*/ c";
                                 Action "search"])%nat) out
          `sublist_of` [0; 1; 2]%nat.
Proof.
  assert (well_formed
            [Text "/*PLANNING*/ a"; Text "b /*FINAL_ANSWER*/ c"; Action "search"]
            [0; 1; 2]%nat) as Hwf.
  { unfold well_formed. repeat constructor; simpl; lia. }
  assert ([0; 1; 2]%nat <> []) as Hne by discriminate.
  split; [exact Hwf|]. split; [exact Hne|].
  exact (process_keeps_input_order unit tt _ _ Hwf Hne).
Defined.

(** ** Input without the final-answer tag *)

Lemma scan_loop_no_alloc (parts : list nat) :
  forall (i : Z) (preserved_parts : list nat) (h : heap)
         (out : list nat) (idx : Z) (h' : heap),
  scan_loop i parts preserved_parts h = Some ((out, idx), h') ->
  (forall r p, r ∈ parts -> h !! r = Some p -> text_with_final_answer p = None) ->
  length h' = length h.
Proof.
  induction parts as [|r rest IH]; intros i pres h out idx h' Hrun Hnone.
  { simpl in Hrun. by injection Hrun as _ _ <-. }
  cbn [scan_loop] in Hrun. unfold bind at 1, deref in Hrun.
  destruct (h !! r) as [pr|] eqn:Hr; [|done].
  assert (forall r' p, r' ∈ rest -> h !! r' = Some p -> text_with_final_answer p = None)
    as Hrest by (intros r' p Hin; apply Hnone, elem_of_cons; auto).
  destruct (function_call pr) as [fc|].
  - destruct (truthy_opt (name fc)); simpl in Hrun.
    + by injection Hrun as _ _ <-.
    + by eapply IH.
  - unfold bind in Hrun.
    assert (text_with_final_answer pr = None) as Hf
      by (eapply Hnone; [apply elem_of_cons; by left | done]).
    rewrite (handle_no_tag h r pr pres Hr Hf) in Hrun.
    erewrite IH; [by rewrite length_insert | exact Hrun |].
    intros r' p Hin Hp. destruct (decide (r' = r)) as [->|Hne].
    + rewrite list_lookup_insert_eq in Hp by by eapply lookup_lt_Some.
      injection Hp as <-. rewrite <- Hf. apply text_with_final_answer_ext.
      by destruct (starts_with_narrative_tag pr).
    + rewrite list_lookup_insert_ne in Hp by done. by eapply Hrest.
Qed.

(** X14.  When no part of the input holds the final-answer tag, the method
    constructs no object: the store keeps its size, and the output consists
    of parts of the input, in input order. *)
Theorem process_without_final_answer_allocates_nothing
    (CallbackContext : Type) (callback_context : CallbackContext)
    (h : heap) (response_parts : list ref) :
  well_formed h response_parts -> response_parts <> [] ->
  (forall r p t, r ∈ response_parts -> h !! r = Some p -> text p = Some t ->
                 PyStr.contains FINAL_ANSWER_TAG t = false) ->
  exists (out : list ref) (h' : heap),
    process_planning_response callback_context response_parts h = Some (Some out, h')
    /\ length h' = length h
    /\ out `sublist_of` response_parts.
Proof.
  intros Hwf Hne Hnone.
  assert (forall r p, r ∈ response_parts -> h !! r = Some p ->
                      text_with_final_answer p = None) as Hnone'.
  { intros r p Hin Hp. apply text_with_final_answer_None. intros t. by eapply Hnone. }
  destruct (process_planning_response_spec callback_context h response_parts Hwf Hne)
    as (m & groups & idx & h' & Hscan & Hrun & _ & _ & _).
  destruct (process_old_refs_sublist callback_context h response_parts Hwf Hne)
    as (out & h2 & Hrun2 & Hsub).
  destruct (process_planning_response_total callback_context h response_parts Hwf)
    as (res & h3 & Hrun3 & _ & _ & Horigin).
  rewrite Hrun in Hrun2, Hrun3. injection Hrun2 as <- <-. injection Hrun3 as <- <-.
  eexists _, h'. split; [exact Hrun|].
  split; [by eapply scan_loop_no_alloc|].
  rewrite filter_all_true in Hsub; [done|].
  apply Forall_forall. intros r Hr.
  destruct (Horigin _ eq_refl r Hr)
    as [(_ & p & Hp & _)|(_ & l & p & t & _ & Hl & Hp & _ & Hf & _)].
  - by eapply lookup_lt_Some.
  - rewrite (Hnone' l p Hl Hp) in Hf. done.
Qed.

Lemma process_without_final_answer_allocates_nothing_witness :
  well_formed [Text "/*PLANNING*/ a"; Action ""; Text "plain"] [0; 1; 2]%nat
  /\ [0; 1; 2]%nat <> []
  /\ exists (out : list ref) (h' : heap),
       process_planning_response tt [0; 1; 2]%nat
         [Text "/*PLANNING*/ a"; Action ""; Text "plain"] = Some (Some out, h')
       /\ length h' = length [Text "/*PLANNING*/ a"; Action ""; Text "plain"]
       /\ out `sublist_of` [0; 1; 2]%nat.
Proof.
  assert (well_formed [Text "/*PLANNING*/ a"; Action ""; Text "plain"] [0; 1; 2]%nat)
    as Hwf.
  { unfold well_formed. repeat constructor; simpl; lia. }
  assert ([0; 1; 2]%nat <> []) as Hne by discriminate.
  split; [exact Hwf|]. split; [exact Hne|].
  apply (process_without_final_answer_allocates_nothing unit tt _ _ Hwf Hne).
  intros r p t Hr Hp Ht.
  destruct r as [|[|[|r]]]; simpl in Hp; try discriminate;
    injection Hp as <-; simpl in Ht; try discriminate;
    injection Ht as <-; reflexivity.
Defined.

(** ** The objects the method constructs *)

Lemma scan_loop_new_refs (n : nat) (parts : list nat) :
  forall (i : Z) (preserved_parts : list nat) (h : heap)
         (out : list nat) (idx : Z) (h' : heap),
  scan_loop i parts preserved_parts h = Some ((out, idx), h') ->
  (n <= length h)%nat -> Forall (fun r => (r < n)%nat) parts ->
  exists added,
    out = preserved_parts ++ added
    /\ filter (fun r => (n <= r)%nat) added = seq (length h) (length h' - length h).
Proof.
  induction parts as [|r rest IH]; intros i pres h out idx h' Hrun Hn Hold.
  { simpl in Hrun. injection Hrun as <- _ <-. exists []. rewrite app_nil_r.
    by rewrite Nat.sub_diag. }
  inversion Hold as [|? ? Hr_old Hold']; subst.
  cbn [scan_loop] in Hrun. unfold bind at 1, deref in Hrun.
  destruct (h !! r) as [pr|] eqn:Hr; [|done].
  assert (filter (fun r => (n <= r)%nat) [r] = []) as Hfr
    by (apply filter_all_false; repeat constructor; lia).
  destruct (function_call pr) as [fc|].
  - destruct (truthy_opt (name fc)); simpl in Hrun.
    + injection Hrun as <- _ <-. exists [r]. by rewrite Nat.sub_diag.
    + by eapply IH.
  - unfold bind in Hrun.
    destruct (text_with_final_answer pr) as [t|] eqn:Hf.
    + destruct (handle_final h r pr t pres Hr Hf) as (pre & post & _ & _ & _ & Hh).
      rewrite Hh in Hrun.
      destruct (scan_loop_touched _ _ _ _ _ _ _ Hrun) as (_ & Hlen & _).
      destruct (IH _ _ _ _ _ _ Hrun) as (added & -> & Hadded);
        [rewrite length_app; lia | done |].
      rewrite length_app in Hlen, Hadded.
      exists ((length h :: (if PyStr.truthy post then [S (length h)] else [])) ++ added).
      split; [by rewrite (assoc_L (++))|].
      rewrite filter_app, Hadded.
      destruct (PyStr.truthy post); simpl in *.
      * rewrite filter_all_true by (repeat constructor; lia).
        replace (length h' - length h)%nat
          with (2 + (length h' - (length h + 2)))%nat by lia.
        by rewrite seq_app.
      * rewrite filter_all_true by (repeat constructor; lia).
        replace (length h' - length h)%nat
          with (1 + (length h' - (length h + 1)))%nat by lia.
        by rewrite seq_app.
    + rewrite (handle_no_tag h r pr pres Hr Hf) in Hrun.
      destruct (IH _ _ _ _ _ _ Hrun) as (added & -> & Hadded);
        [by rewrite length_insert | done |].
      rewrite length_insert in Hadded.
      exists ([r] ++ added). split; [by rewrite (assoc_L (++))|].
      by rewrite filter_app, Hfr.
Qed.

(** X15.  The new references in the output are exactly the objects the method
    constructed, each once and in the order of construction: every object it
    builds is returned, and nothing else in the output is new. *)
Theorem process_returns_what_it_constructs
    (CallbackContext : Type) (callback_context : CallbackContext)
    (h : heap) (response_parts : list ref) :
  well_formed h response_parts -> response_parts <> [] ->
  exists (out : list ref) (h' : heap),
    process_planning_response callback_context response_parts h = Some (Some out, h')
    /\ (length h <= length h')%nat
    /\ filter (fun r => (length h <= r)%nat) out
       = seq (length h) (length h' - length h).
Proof.
  intros Hwf Hne.
  destruct (process_planning_response_spec callback_context h response_parts Hwf Hne)
    as (m & groups & idx & h' & Hscan & Hrun & [Hlen _] & _ & _).
  eexists _, h'. split; [exact Hrun|]. split; [done|].
  destruct (scan_loop_new_refs (length h) _ _ _ _ _ _ _ Hscan) as (added & Heq & Hadded);
    [done | done |].
  simpl in Heq. rewrite Heq, filter_app, Hadded.
  rewrite filter_all_false; [by rewrite app_nil_r|].
  apply Forall_forall. intros r Hr.
  destruct (0 <? idx); [|by apply elem_of_nil in Hr].
  apply elem_of_leading_actions in Hr as [_ (p & Hp & _)].
  apply lookup_lt_Some in Hp. lia.
Qed.

Lemma process_returns_what_it_constructs_witness :
  well_formed [Text "a /*FINAL_ANSWER*/"; Text "b /*FINAL_ANSWER*/ c"; Action "search"]
    [0; 1; 2]%nat
  /\ [0; 1; 2]%nat <> []
  /\ exists (out : list ref) (h' : heap),
       process_planning_response tt [0; 1; 2]%nat
         [Text "a /*FINAL_ANSWER*/"; Text "b /*FINAL_ANSWER*/ c"; Action "search"]
         = Some (Some out, h')
       /\ (length [Text "a /*FINAL_ANSWER*/"; Text "b /*FINAL_ANSWER*/ c";
                   Action "search"] <= length h')%nat
       /\ filter (fun r =>
                    (length [Text "a /*FINAL_ANSWER*/"; Text "b /*FINAL_ANSWER*/ c";
                             Action "search"] <= r)%nat) out
          = seq (length [Text "a /*FINAL_ANSWER*/"; Text "b /*FINAL_ANSWER*/ c";
                         Action "search"])
                (length h'
                 - length [Text "a /*FINAL_ANSWER*/"; Text "b /*FINAL_ANSWER*/ c";
                           Action "search"]).
Proof.
  assert (well_formed
            [Text "a /*FINAL_ANSWER*/"; Text "b /*FINAL_ANSWER*/ c"; Action "search"]
            [0; 1; 2]%nat) as Hwf.
  { unfold well_formed. repeat constructor; simpl; lia. }
  assert ([0; 1; 2]%nat <> []) as Hne by discriminate.
  split; [exact Hwf|]. split; [exact Hne|].
  exact (process_returns_what_it_constructs unit tt _ _ Hwf Hne).
Defined.

Example constructs_example :
  process_planning_response tt [0; 1; 2]%nat
    [Text "a /*FINAL_ANSWER*/"; Text "b /*FINAL_ANSWER*/ c"; Action "search"]
  = Some (Some [3; 4; 5; 2]%nat,
          [Text "a /*FINAL_ANSWER*/"; Text "b /*FINAL_ANSWER*/ c"; Action "search";
           with_thought true (Text "a /*FINAL_ANSWER*/");
           with_thought true (Text "b /*FINAL_ANSWER*/"); Text " c"]).
Proof. reflexivity. Qed.

